(** * CoAPy: endpoints, URI/option translation and the time-due queue

    A shallow embedding of [coapy/util.py] and [coapy/endpoint.py]
    (Python 2), with the properties of the natural-language specification
    stated and proved over it.

    Conventions of the embedding.
    - A Python object with mutable attributes is an object identifier
      ([objid]) together with a store mapping identifiers to attribute
      records; two references are the same object ([is]) exactly when the
      identifiers are equal.
    - A Python call that may raise returns a [result]: [Ok v] or
      [Raise e].
    - Byte strings ([str]) are Rocq strings.  Unicode text is represented
      by its UTF-8 encoding, so [text.encode('utf-8')] is the identity,
      [data.decode('utf-8')] is a validity check, and the implicit ASCII
      conversion [bytes(text)] is a check that every byte is below 128. *)

From Stdlib Require Import ZArith String Ascii List Lia DecimalString Sorted Permutation.
From stdpp Require Import base option list sorting gmap strings.

Local Open Scope string_scope.
Local Open Scope list_scope.
Local Open Scope Z_scope.

(** ** Python values and exceptions *)

Definition objid := nat.

Inductive exn : Type :=
| URIError (msg : string) (arg : string)
| gaierror (code : Z)
| socket_error
| ValueError
| IndexError
| AttributeError
| UnicodeEncodeError
| UnicodeDecodeError
| KeyError.

#[global] Instance exn_eq_dec : EqDecision exn.
Proof. solve_decision. Defined.

Inductive result (A : Type) : Type :=
| Ok (v : A)
| Raise (e : exn).
Arguments Ok {A} v.
Arguments Raise {A} e.

Definition rbind {A B : Type} (r : result A) (k : A -> result B) : result B :=
  match r with
  | Ok v => k v
  | Raise e => Raise e
  end.

#[global] Instance result_ret : MRet result := fun A v => Ok v.
#[global] Instance result_bind : MBind result := fun A B k r => rbind r k.

Definition is_URIError (e : exn) : bool :=
  match e with
  | URIError _ _ => true
  | _ => false
  end.

(** ** [coapy.util.TimeDueOrdinal]

    Instances are mutable objects: the queue is a Python list of
    references, and [time_due] may be assigned after an entry was
    inserted.  The store [tdo_store] gives the current attributes of each
    object; a queue is a list of object identifiers.  Due times are
    values of the ordinal space of the clock, taken here as integers;
    an entry created without a due time has [time_due] [None]. *)

Module TimeDueOrdinal.

Record t : Type := { time_due : option Z }.

Definition tdo_store := objid -> t.

(** Assignment [obj.time_due = v]. *)
Definition set_time_due (h : tdo_store) (obj : objid) (v : option Z) : tdo_store :=
  fun o => if Nat.eqb o obj then {| time_due := v |} else h o.

(** Python 2 comparison of two values that are [None] or numbers:
    [None] equals only [None] and is smaller than every number. *)
Definition py_eq (a b : option Z) : bool :=
  match a, b with
  | None, None => true
  | Some x, Some y => Z.eqb x y
  | _, _ => false
  end.

Definition py_lt (a b : option Z) : bool :=
  match a, b with
  | None, None => false
  | None, Some _ => true
  | Some _, None => false
  | Some x, Some y => Z.ltb x y
  end.

Definition py_le (a b : option Z) : bool :=
  match a, b with
  | None, _ => true
  | Some _, None => false
  | Some x, Some y => Z.leb x y
  end.

Definition is_not_None (a : option Z) : bool :=
  match a with
  | None => false
  | Some _ => true
  end.

Section Methods.
Variable h : tdo_store.

(** [__eq__]: (self.time_due is not None) and
    (self.time_due == other.time_due) *)
Definition __eq__ (self other : objid) : bool :=
  is_not_None (time_due (h self))
  && py_eq (time_due (h self)) (time_due (h other)).

(** [__ne__]: self.time_due != other.time_due *)
Definition __ne__ (self other : objid) : bool :=
  negb (py_eq (time_due (h self)) (time_due (h other))).

(** [__lt__]: self.time_due < other.time_due *)
Definition __lt__ (self other : objid) : bool :=
  py_lt (time_due (h self)) (time_due (h other)).

(** The comparison made by [list.index] and [list.remove] between a
    list item and the searched value (CPython's
    [PyObject_RichCompareBool(item, value, Py_EQ)]): identical
    objects are equal without [__eq__] being consulted (which is why a
    list finds a NaN it contains); otherwise the answer is
    [item.__eq__(value)]. *)
Definition RichCompareBool_EQ (item value : objid) : bool :=
  Nat.eqb item value || __eq__ item value.

(** [list.index(value)]: position of the first matching item. *)
Fixpoint list_index (queue : list objid) (value : objid) : result nat :=
  match queue with
  | [] => Raise ValueError
  | item :: rest =>
      if RichCompareBool_EQ item value then Ok 0%nat
      else match list_index rest value with
           | Ok i => Ok (S i)
           | Raise e => Raise e
           end
  end.

(** [list.pop(i)] for an index [0 <= i]: the item and the remaining
    list; [IndexError] when out of range. *)
Definition list_pop (queue : list objid) (i : nat) : result (objid * list objid) :=
  match queue !! i with
  | Some item => Ok (item, take i queue ++ drop (S i) queue)
  | None => Raise IndexError
  end.

(** [list.remove(value)]: delete the first matching item. *)
Fixpoint list_remove (queue : list objid) (value : objid) : result (list objid) :=
  match queue with
  | [] => Raise ValueError
  | item :: rest =>
      if RichCompareBool_EQ item value then Ok rest
      else match list_remove rest value with
           | Ok rest' => Ok (item :: rest')
           | Raise e => Raise e
           end
  end.

(** The loop of [bisect.bisect_right(a, x)]:
    while lo < hi: mid = (lo+hi)//2;
      if x < a[mid]: hi = mid  else: lo = mid+1
    The fuel bounds the number of iterations; [hi - lo] shrinks at
    every iteration, so [length a] is enough. *)
Fixpoint bisect_loop (fuel : nat) (a : list objid) (x : objid) (lo hi : nat) : nat :=
  match fuel with
  | O => lo
  | S fuel' =>
      if Nat.ltb lo hi then
        let mid := Nat.div (lo + hi) 2 in
        match a !! mid with
        | Some y =>
            if __lt__ x y then bisect_loop fuel' a x lo mid
            else bisect_loop fuel' a x (S mid) hi
        | None => lo
        end
      else lo
  end.

Definition bisect_right (a : list objid) (x : objid) : nat :=
  bisect_loop (length a) a x 0%nat (length a).

(** [list.insert(i, x)] for [0 <= i <= len]. *)
Definition list_insert_at (a : list objid) (i : nat) (x : objid) : list objid :=
  take i a ++ x :: drop i a.

(** [bisect.insort(a, x)] (an alias of [insort_right]). *)
Definition insort (a : list objid) (x : objid) : list objid :=
  list_insert_at a (bisect_right a x) x.

(** [queue_reposition]:
    bisect.insort(queue, queue.pop(queue.index(self))) *)
Definition queue_reposition (self : objid) (queue : list objid) : result (list objid) :=
  i ← list_index queue self;
  '(item, queue') ← list_pop queue i;
  Ok (insort queue' item).

(** [queue_insert]: bisect.insort(queue, self) *)
Definition queue_insert (self : objid) (queue : list objid) : list objid :=
  insort queue self.

(** [queue_remove]: queue.remove(self) *)
Definition queue_remove (self : objid) (queue : list objid) : result (list objid) :=
  list_remove queue self.

(** [queue_ready_prefix(queue, now)] with an explicit [now]:
    ub = 0
    while ub < len(queue) and (queue[ub].time_due <= now): ub += 1
    return list(queue[:ub]) *)
Fixpoint queue_ready_prefix (queue : list objid) (now : Z) : list objid :=
  match queue with
  | [] => []
  | item :: rest =>
      if py_le (time_due (h item)) (Some now)
      then item :: queue_ready_prefix rest now
      else []
  end.

(** The queue is in ascending order of the current [time_due]. *)
Fixpoint sorted_by_time_due (queue : list objid) : bool :=
  match queue with
  | [] => true
  | x :: rest =>
      match rest with
      | [] => true
      | y :: _ => py_le (time_due (h x)) (time_due (h y)) && sorted_by_time_due rest
      end
  end.

End Methods.

(** The order of the queue as a relation on entries. *)
Definition le_time_due (h : tdo_store) (x y : objid) : Prop :=
  py_le (time_due (h x)) (time_due (h y)) = true.

(** [item] is found by a list search for [self]: it is the same
    object, or both have the same due time and that is not [None]. *)
Definition found_for (h : tdo_store) (self item : objid) : Prop :=
  item = self
  \/ exists t, time_due (h item) = Some t /\ time_due (h self) = Some t.

(** The store in which object [i] has the [i]-th due time of the list
    (and [None] beyond it). *)
Definition store_of (dues : list (option Z)) : tdo_store :=
  fun o => {| time_due := List.nth o dues None |}.

End TimeDueOrdinal.

(** ** Byte-string operations of Python used by the code *)

Module pystr.
Local Open Scope N_scope.

Definition byte (c : ascii) : N := N_of_ascii c.

Definition nonempty (s : string) : bool :=
  match s with
  | EmptyString => false
  | String _ _ => true
  end.

(** [c in s] for a one-character [c]. *)
Fixpoint contains (c : ascii) (s : string) : bool :=
  match s with
  | EmptyString => false
  | String d s' => Ascii.eqb c d || contains c s'
  end.

Fixpoint all_chars (p : ascii -> bool) (s : string) : bool :=
  match s with
  | EmptyString => true
  | String c s' => p c && all_chars p s'
  end.

(** Every byte is below 128: the text is pure ASCII. *)
Definition is_ascii (s : string) : bool :=
  all_chars (fun c => N.ltb (byte c) 128) s.

(** [s.split(sep)] for a one-character separator. *)
Fixpoint split (sep : ascii) (s : string) : list string :=
  match s with
  | EmptyString => [EmptyString]
  | String c s' =>
      if Ascii.eqb c sep then EmptyString :: split sep s'
      else match split sep s' with
           | [] => [String c EmptyString]
           | w :: ws => String c w :: ws
           end
  end.

(** [s.split(sep, 1)] when [sep in s]: the text before and after the
    first separator; [None] when the separator does not occur. *)
Fixpoint split1 (sep : ascii) (s : string) : option (string * string) :=
  match s with
  | EmptyString => None
  | String c s' =>
      if Ascii.eqb c sep then Some (EmptyString, s')
      else match split1 sep s' with
           | Some (a, b) => Some (String c a, b)
           | None => None
           end
  end.

(** [sep.join(parts)] *)
Definition join (sep : string) (parts : list string) : string :=
  String.concat sep parts.

(** [s.startswith(c)] for a one-character [c]. *)
Definition startswith (c : ascii) (s : string) : bool :=
  match s with
  | String d _ => Ascii.eqb c d
  | EmptyString => false
  end.

(** [s[1:]] *)
Definition tail (s : string) : string :=
  match s with
  | String _ s' => s'
  | EmptyString => EmptyString
  end.

Definition lower_char (c : ascii) : ascii :=
  let n := byte c in
  if N.leb 65 n && N.leb n 90 then ascii_of_N (n + 32) else c.

(** [s.lower()] on ASCII letters. *)
Fixpoint lower (s : string) : string :=
  match s with
  | EmptyString => EmptyString
  | String c s' => String (lower_char c) (lower s')
  end.

Definition is_digit (c : ascii) : bool :=
  let n := byte c in N.leb 48 n && N.leb n 57.

Definition is_alpha (c : ascii) : bool :=
  let n := byte c in
  (N.leb 65 n && N.leb n 90) || (N.leb 97 n && N.leb n 122).

(** [str(n)] for an integer. *)
Definition of_Z (n : Z) : string := NilZero.string_of_int (Z.to_int n).

(** [int(s, 10)] for a text of decimal digits. *)
Fixpoint digits_value (acc : Z) (s : string) : Z :=
  match s with
  | EmptyString => acc
  | String c s' => digits_value (10 * acc + Z.of_N (byte c - 48))%Z s'
  end.

End pystr.

(** ** [urllib.quote] and [urllib.unquote] (Python 2) *)

Module urllib.
Local Open Scope N_scope.

Definition always_safe : string :=
  "ABCDEFGHIJKLMNOPQRSTUVWXYZabcdefghijklmnopqrstuvwxyz0123456789_.-".

Definition hex_digit (n : N) : ascii :=
  if N.ltb n 10 then ascii_of_N (48 + n) else ascii_of_N (55 + n).

(** ['%{:02X}'.format(i)] *)
Definition percent_escape (c : ascii) : string :=
  let n := pystr.byte c in
  String "%" (String (hex_digit (N.div n 16)) (String (hex_digit (N.modulo n 16)) EmptyString)).

(** One entry of the quoting table: a byte is kept when it is below
    128 and in [always_safe], or when it occurs in [safe]; any other
    byte is replaced by its escape. *)
Definition quoter (safe : string) (c : ascii) : string :=
  if (N.ltb (pystr.byte c) 128 && pystr.contains c always_safe)
     || pystr.contains c safe
  then String c EmptyString
  else percent_escape c.

(** [urllib.quote(s, safe)]: ''.join(map(quoter, s)) *)
Fixpoint quote (s : string) (safe : string) : string :=
  match s with
  | EmptyString => EmptyString
  | String c s' => String.append (quoter safe c) (quote s' safe)
  end.

(** Value of a character of [_hexdig = '0123456789ABCDEFabcdef']. *)
Definition hex_value (c : ascii) : option N :=
  let n := pystr.byte c in
  if N.leb 48 n && N.leb n 57 then Some (n - 48)
  else if N.leb 65 n && N.leb n 70 then Some (n - 55)
  else if N.leb 97 n && N.leb n 102 then Some (n - 87)
  else None.

(** [urllib.unquote(s)] on a byte string: every ["%"] followed by two
    hexadecimal digits becomes the byte they denote; any other ["%"]
    stays. *)
Fixpoint unquote (s : string) : string :=
  match s with
  | EmptyString => EmptyString
  | String c rest =>
      if Ascii.eqb c "%" then
        match rest with
        | String h1 (String h2 rest') =>
            match hex_value h1, hex_value h2 with
            | Some a, Some b => String (ascii_of_N (16 * a + b)) (unquote rest')
            | _, _ => String c (unquote rest)
            end
        | _ => String c (unquote rest)
        end
      else String c (unquote rest)
  end.

(** The character [unichr(n)] for [n < 256], in the UTF-8
    representation of text. *)
Definition latin1_char (n : N) : string :=
  if N.ltb n 128 then String (ascii_of_N n) EmptyString
  else String (ascii_of_N (192 + N.div n 64))
         (String (ascii_of_N (128 + N.modulo n 64)) EmptyString).

(** [urllib.unquote(s)] on Unicode text: an escape [%XX] becomes the
    character [unichr(0xXX)]. *)
Fixpoint unquote_text (s : string) : string :=
  match s with
  | EmptyString => EmptyString
  | String c rest =>
      if Ascii.eqb c "%" then
        match rest with
        | String h1 (String h2 rest') =>
            match hex_value h1, hex_value h2 with
            | Some a, Some b => String.append (latin1_char (16 * a + b)) (unquote_text rest')
            | _, _ => String c (unquote_text rest)
            end
        | _ => String c (unquote_text rest)
        end
      else String c (unquote_text rest)
  end.

End urllib.

(** ** Text codecs *)

Module codecs.
Local Open Scope N_scope.

Definition is_cont (c : ascii) : bool :=
  let n := pystr.byte c in N.leb 128 n && N.ltb n 192.

(** Acceptance by the UTF-8 decoder of Python 2.7: lead bytes C2..DF
    take one continuation byte, E0..EF two, F0..F4 three; overlong
    forms and values above U+10FFFF are rejected (surrogates are
    accepted by Python 2). *)
Fixpoint utf8_valid (s : string) : bool :=
  match s with
  | EmptyString => true
  | String c0 r0 =>
      let b0 := pystr.byte c0 in
      if N.ltb b0 128 then utf8_valid r0
      else if N.ltb b0 194 then false
      else if N.ltb b0 224 then
        match r0 with
        | String c1 r1 => is_cont c1 && utf8_valid r1
        | _ => false
        end
      else if N.ltb b0 240 then
        match r0 with
        | String c1 (String c2 r2) =>
            is_cont c1 && is_cont c2
            && negb (N.eqb b0 224 && N.ltb (pystr.byte c1) 160)
            && utf8_valid r2
        | _ => false
        end
      else if N.ltb b0 245 then
        match r0 with
        | String c1 (String c2 (String c3 r3)) =>
            is_cont c1 && is_cont c2 && is_cont c3
            && negb (N.eqb b0 240 && N.ltb (pystr.byte c1) 144)
            && negb (N.eqb b0 244 && N.ltb 143 (pystr.byte c1))
            && utf8_valid r3
        | _ => false
        end
      else false
  end.

(** [data.decode('utf-8')] *)
Definition decode_utf8 (data : string) : result string :=
  if utf8_valid data then Ok data else Raise UnicodeDecodeError.

(** [bytes(text)]: the implicit ASCII encoding of Python 2. *)
Definition bytes (text : string) : result string :=
  if pystr.is_ascii text then Ok text else Raise UnicodeEncodeError.

End codecs.

(** ** [urlparse] (Python 2.7), after [endpoint.py] has extended
    [uses_relative], [uses_netloc] and [uses_query] with "coap" and
    "coaps".  The parse cache is not modelled: it does not change
    results. *)

Module urlparse.

Definition uses_relative : list string :=
  ["ftp"; "http"; "gopher"; "nntp"; "imap"; "wais"; "file"; "https";
   "shttp"; "mms"; "prospero"; "rtsp"; "rtspu"; ""; "sftp"; "svn";
   "svn+ssh"; "coap"; "coaps"].

Definition uses_netloc : list string :=
  ["ftp"; "http"; "gopher"; "nntp"; "telnet"; "imap"; "wais"; "file";
   "mms"; "https"; "shttp"; "snews"; "prospero"; "rtsp"; "rtspu";
   "rsync"; ""; "svn"; "svn+ssh"; "sftp"; "nfs"; "git"; "git+ssh";
   "coap"; "coaps"].

Definition uses_params : list string :=
  ["ftp"; "hdl"; "prospero"; "http"; "imap"; "https"; "shttp"; "rtsp";
   "rtspu"; "sip"; "sips"; "mms"; ""; "sftp"; "tel"].

Definition str_in (s : string) (l : list string) : bool :=
  existsb (String.eqb s) l.

Definition scheme_char (c : ascii) : bool :=
  pystr.is_alpha c || pystr.is_digit c
  || Ascii.eqb c "+" || Ascii.eqb c "-" || Ascii.eqb c ".".

(** The tuple returned by [urlsplit]: every field is a string, never
    [None]. *)
Record SplitResult : Type := {
  scheme : string;
  netloc : string;
  path : string;
  query : string;
  fragment : string
}.

(** [_splitnetloc(url, 2)] applied to the text after the leading
    "//": the authority runs up to the first of "/", "?" and "#". *)
Fixpoint _splitnetloc (s : string) : string * string :=
  match s with
  | EmptyString => (EmptyString, EmptyString)
  | String c s' =>
      if Ascii.eqb c "/" || Ascii.eqb c "?" || Ascii.eqb c "#"
      then (EmptyString, s)
      else let '(a, b) := _splitnetloc s' in (String c a, b)
  end.

(** The part of [urlsplit] after the scheme was taken off. *)
Definition split_rest (scheme url : string) : result SplitResult :=
  '(netloc, url) ←
    match url with
    | String "/" (String "/" after) =>
        let '(nl, rest) := _splitnetloc after in
        if (pystr.contains "[" nl && negb (pystr.contains "]" nl))
           || (pystr.contains "]" nl && negb (pystr.contains "[" nl))
        then Raise ValueError
        else Ok (nl, rest)
    | _ => Ok (EmptyString, url)
    end;
  let '(url, fragment) :=
    match pystr.split1 "#" url with
    | Some (a, b) => (a, b)
    | None => (url, EmptyString)
    end in
  let '(url, query) :=
    match pystr.split1 "?" url with
    | Some (a, b) => (a, b)
    | None => (url, EmptyString)
    end in
  Ok {| scheme := scheme; netloc := netloc; path := url;
        query := query; fragment := fragment |}.

(** [urlsplit(url, scheme)]; [scheme] is the default used when the
    text carries none. *)
Definition urlsplit_with (url scheme : string) : result SplitResult :=
  match pystr.split1 ":" url with
  | Some (String c0 pre' as pre, rest) =>
      if String.eqb pre "http" then split_rest (pystr.lower pre) rest
      else if pystr.all_chars scheme_char pre then
        if negb (pystr.nonempty rest)
           || negb (pystr.all_chars pystr.is_digit rest)
        then split_rest (pystr.lower pre) rest
        else split_rest scheme url
      else split_rest scheme url
  | _ => split_rest scheme url
  end.

Definition urlsplit (url : string) : result SplitResult :=
  urlsplit_with url EmptyString.

(** [urlunsplit((scheme, netloc, url, query, fragment))] *)
Definition urlunsplit (scheme netloc url query fragment : string) : string :=
  let url :=
    if pystr.nonempty netloc
       || (pystr.nonempty scheme && str_in scheme uses_netloc
           && negb (String.eqb (String.substring 0 2 url) "//"))
    then
      let url := if pystr.nonempty url && negb (pystr.startswith "/" url)
                 then String "/" url else url in
      String.append "//" (String.append netloc url)
    else url in
  let url := if pystr.nonempty scheme
             then String.append scheme (String ":" url) else url in
  let url := if pystr.nonempty query
             then String.append url (String "?" query) else url in
  if pystr.nonempty fragment
  then String.append url (String "#" fragment) else url.

(** [res.hostname]: the host part of the authority, in lower case
    (letters outside ASCII are left as they are). *)
Definition hostname (res : SplitResult) : option string :=
  let nl := List.last (pystr.split "@" (netloc res)) EmptyString in
  if pystr.contains "[" nl && pystr.contains "]" nl then
    Some (pystr.lower (pystr.tail (List.hd EmptyString (pystr.split "]" nl))))
  else if pystr.contains ":" nl then
    Some (pystr.lower (List.hd EmptyString (pystr.split ":" nl)))
  else if negb (pystr.nonempty nl) then None
  else Some (pystr.lower nl).

(** [res.port]: the decimal port after the host, [None] when there is
    none or it is out of range.  A port text that is not made of
    decimal digits is reported as [ValueError]. *)
Definition port (res : SplitResult) : result (option Z) :=
  let nl := List.last (pystr.split "]" (List.last (pystr.split "@" (netloc res)) EmptyString))
              EmptyString in
  if pystr.contains ":" nl then
    let p := List.nth 1 (pystr.split ":" nl) EmptyString in
    if pystr.nonempty p then
      if pystr.all_chars pystr.is_digit p then
        let n := pystr.digits_value 0 p in
        if Z.leb n 65535 then Ok (Some n) else Ok None
      else Raise ValueError
    else Ok None
  else Ok None.

(** [_splitparams(url)], called when ";" occurs in [url]: the
    parameters start at the first ";" of the last path segment. *)
Definition _splitparams (url : string) : string * string :=
  let segs := pystr.split "/" url in
  match pystr.split1 ";" (List.last segs EmptyString) with
  | Some (a, b) => (pystr.join "/" (List.removelast segs ++ [a]), b)
  | None => (url, EmptyString)
  end.

Record ParseResult : Type := {
  p_scheme : string;
  p_netloc : string;
  p_path : string;
  p_params : string;
  p_query : string;
  p_fragment : string
}.

(** [urlparse(url, scheme)] *)
Definition urlparse_with (url scheme : string) : result ParseResult :=
  r ← urlsplit_with url scheme;
  let '(url, params) :=
    if str_in (urlparse.scheme r) uses_params && pystr.contains ";" (path r)
    then _splitparams (path r)
    else (path r, EmptyString) in
  Ok {| p_scheme := urlparse.scheme r; p_netloc := netloc r; p_path := url;
        p_params := params; p_query := query r; p_fragment := fragment r |}.

(** [urlunparse((scheme, netloc, url, params, query, fragment))] *)
Definition urlunparse (scheme netloc url params query fragment : string) : string :=
  let url := if pystr.nonempty params
             then String.append url (String ";" params) else url in
  urlunsplit scheme netloc url query fragment.

(** One round of the loop of [urljoin] that deletes the first
    "segment/.." pair lying before the last segment; [None] when there
    is no such pair. *)
Fixpoint dotdot_step (segs : list string) : option (list string) :=
  match segs with
  | prev :: rest =>
      match rest with
      | cur :: ((_ :: _) as rest') =>
          if String.eqb cur ".."
             && negb (String.eqb prev "" || String.eqb prev "..")
          then Some rest'
          else match dotdot_step rest with
               | Some r => Some (prev :: r)
               | None => None
               end
      | _ => None
      end
  | [] => None
  end.

Fixpoint dotdot_loop (fuel : nat) (segs : list string) : list string :=
  match fuel with
  | O => segs
  | S fuel' =>
      match dotdot_step segs with
      | Some segs' => dotdot_loop fuel' segs'
      | None => segs
      end
  end.

Definition join_segments (bpath path : string) : list string :=
  let segments := List.removelast (pystr.split "/" bpath) ++ pystr.split "/" path in
  let segments :=
    if String.eqb (List.last segments EmptyString) "."
    then List.removelast segments ++ [EmptyString] else segments in
  let segments := List.filter (fun x => negb (String.eqb x ".")) segments in
  let segments := dotdot_loop (length segments) segments in
  if Nat.eqb (length segments) 2
     && String.eqb (List.hd EmptyString segments) ""
     && String.eqb (List.last segments EmptyString) ".."
  then [EmptyString; EmptyString]
  else if Nat.leb 2 (length segments)
          && String.eqb (List.last segments EmptyString) ".."
  then List.removelast (List.removelast segments) ++ [EmptyString]
  else segments.

(** [urljoin(base, url)] *)
Definition urljoin (base url : string) : result string :=
  if negb (pystr.nonempty base) then Ok url
  else if negb (pystr.nonempty url) then Ok base
  else
    b ← urlparse_with base EmptyString;
    u ← urlparse_with url (p_scheme b);
    if negb (String.eqb (p_scheme u) (p_scheme b))
       || negb (str_in (p_scheme u) uses_relative)
    then Ok url
    else
      let has_netloc := str_in (p_scheme u) uses_netloc in
      if has_netloc && pystr.nonempty (p_netloc u) then
        Ok (urlunparse (p_scheme u) (p_netloc u) (p_path u)
              (p_params u) (p_query u) (p_fragment u))
      else
        let netloc := if has_netloc then p_netloc b else p_netloc u in
        if pystr.startswith "/" (p_path u) then
          Ok (urlunparse (p_scheme u) netloc (p_path u)
                (p_params u) (p_query u) (p_fragment u))
        else if negb (pystr.nonempty (p_path u)) && negb (pystr.nonempty (p_params u)) then
          Ok (urlunparse (p_scheme u) netloc (p_path b) (p_params b)
                (if pystr.nonempty (p_query u) then p_query u else p_query b)
                (p_fragment u))
        else
          Ok (urlunparse (p_scheme u) netloc
                (pystr.join "/" (join_segments (p_path b) (p_path u)))
                (p_params u) (p_query u) (p_fragment u)).

End urlparse.

(** ** The platform: [socket] and [unicodedata]

    Name resolution, address conversion and the Unicode normalisation
    tables are supplied by the operating system and the interpreter; the
    embedding takes them as an environment.  A failing [getaddrinfo]
    raises [socket.gaierror] with an error code; failing address
    conversions raise [socket.error]. *)

Module socket.

(** Constants of the Linux platform. *)
Definition AF_UNSPEC : Z := 0.
Definition AF_INET : Z := 2.
Definition AF_INET6 : Z := 10.
Definition SOCK_DGRAM : Z := 2.
Definition AI_V4MAPPED : Z := 8.
Definition AI_ADDRCONFIG : Z := 32.
Definition AI_NUMERICHOST : Z := 4.
Definition AI_NUMERICSERV : Z := 1024.
Definition EAI_NONAME : Z := -2.

(** A socket address tuple: [(host, port)], followed by
    [flowinfo, scopeid] for IPv6. *)
Record sockaddr_t : Type := {
  sa_host : string;
  sa_port : Z;
  sa_rest : list Z
}.

(** One 5-tuple [(family, socktype, proto, canonname, sockaddr)]. *)
Record addrinfo : Type := {
  ai_family : option Z;
  ai_socktype : option Z;
  ai_proto : option Z;
  ai_canonname : string;
  ai_sockaddr : sockaddr_t
}.

End socket.

Record Env : Type := {
  (** [socket.getaddrinfo(host, port, family, socktype, proto, flags)]:
      the error code of the [gaierror] raised, or the result list. *)
  getaddrinfo : string -> Z -> Z -> Z -> Z -> Z -> Z + list socket.addrinfo;
  (** [socket.inet_pton(family, text)]; [None] stands for [socket.error]. *)
  inet_pton : Z -> string -> option string;
  (** [socket.inet_ntop(family, packed)]; [None] stands for [socket.error]. *)
  inet_ntop : Z -> string -> option string;
  (** [unicodedata.normalize('NFC', text)] *)
  normalize_NFC : string -> string;
  (** ASCII text is in normal form already. *)
  normalize_NFC_ascii : forall s, pystr.is_ascii s = true -> normalize_NFC s = s
}.

(** ** [coapy] constants and the option types used by the endpoint *)

Module coapy.

(** [coapy.COAP_PORT] (asserted by the unit tests). *)
Definition COAP_PORT : Z := 5683.

(** Modelled from the spec: [coapy.COAPS_PORT], the default port of
    the "coaps" scheme, is defined in the package initialisation
    module, which is not part of the sources at hand; the
    specification gives 5684. *)
Definition COAPS_PORT : Z := 5684.

End coapy.

(** Modelled from the spec: the option classes of [coapy.option] are
    not part of the sources at hand.  An option is a tagged value whose
    kind is one of UriHost, UriPort, UriPath, UriQuery and whose value is
    text or an integer; the value of a UriHost or UriPort option may be
    unset ([None]).  [OtherOption] stands for every other kind of
    option, which the endpoint code skips. *)
Inductive CoapOption : Type :=
| UriHost (value : option string)
| UriPort (value : option Z)
| UriPath (value : string)
| UriQuery (value : string)
| OtherOption (number : Z) (value : string).

Definition is_UriHost (o : CoapOption) : bool :=
  match o with UriHost _ => true | _ => false end.
Definition is_UriPort (o : CoapOption) : bool :=
  match o with UriPort _ => true | _ => false end.
Definition is_UriPath (o : CoapOption) : bool :=
  match o with UriPath _ => true | _ => false end.
Definition is_UriQuery (o : CoapOption) : bool :=
  match o with UriQuery _ => true | _ => false end.

(** ** [coapy.util.to_net_unicode] *)

Module util.

(** unicodedata.normalize('NFC', text).encode('utf-8') *)
Definition to_net_unicode (env : Env) (text : string) : string :=
  normalize_NFC env text.

End util.

(** ** [coapy.endpoint.Endpoint] *)

Module Endpoint.
Import socket.

(** The attributes of an instance.  [uri_host], [base_uri] and the
    message-ID iterator are assigned after the instance has been
    registered; [None] means the attribute is not set yet (reading it
    raises [AttributeError]).  The iterator
    [imap(lambda v: v % 65536, count(start))] is represented by the
    next value of its counter. *)
Record t : Type := {
  family : option Z;
  in_addr : string;
  port : Z;
  security_mode : option Z;
  sockaddr : sockaddr_t;
  uri_host : option string;
  base_uri : option string;
  messageID_iter : option Z
}.

(** The key [(family, in_addr, port, security_mode)] of the class
    dictionary [__EndpointRegistry]. *)
Definition Key : Type := option Z * string * Z * option Z.

(** The registry and the store of the instances created so far; a new
    instance takes the next free identifier. *)
Record State : Type := {
  registry : gmap Key objid;
  heap : list t
}.

Definition initial_state : State := {| registry := ∅; heap := [] |}.

Definition key_of (e : t) : Key :=
  (family e, in_addr e, port e, security_mode e).

Definition deref (st : State) (o : objid) : result t :=
  match heap st !! o with
  | Some e => Ok e
  | None => Raise AttributeError
  end.

Definition attr {A : Type} (a : option A) : result A :=
  match a with
  | Some v => Ok v
  | None => Raise AttributeError
  end.

Definition set_uri_host (e : t) (v : string) : t :=
  {| family := family e; in_addr := in_addr e; port := port e;
     security_mode := security_mode e; sockaddr := sockaddr e;
     uri_host := Some v; base_uri := base_uri e;
     messageID_iter := messageID_iter e |}.

Definition set_base_uri (e : t) (v : string) : t :=
  {| family := family e; in_addr := in_addr e; port := port e;
     security_mode := security_mode e; sockaddr := sockaddr e;
     uri_host := uri_host e; base_uri := Some v;
     messageID_iter := messageID_iter e |}.

Definition set_messageID_iter (e : t) (v : Z) : t :=
  {| family := family e; in_addr := in_addr e; port := port e;
     security_mode := security_mode e; sockaddr := sockaddr e;
     uri_host := uri_host e; base_uri := base_uri e;
     messageID_iter := Some v |}.

Definition option_Z_eqb (a b : option Z) : bool :=
  match a, b with
  | None, None => true
  | Some x, Some y => Z.eqb x y
  | _, _ => false
  end.

(** [_port_for_scheme]: a dictionary lookup. *)
Definition _port_for_scheme (scheme : string) : result Z :=
  if String.eqb scheme "coap" then Ok coapy.COAP_PORT
  else if String.eqb scheme "coaps" then Ok coapy.COAPS_PORT
  else Raise KeyError.

(** [next_messageID]: next(self.__messageID_iter) *)
Definition next_messageID (self : t) : result (Z * t) :=
  c ← attr (messageID_iter self);
  Ok (c mod 65536, set_messageID_iter self (c + 1)).

(** [n] consecutive calls of [next_messageID]: the values returned,
    in order, and the endpoint afterwards. *)
Fixpoint next_messageIDs (n : nat) (self : t) : result (list Z * t) :=
  match n with
  | O => Ok ([], self)
  | S n' =>
      '(v, self) ← next_messageID self;
      '(vs, self) ← next_messageIDs n' self;
      Ok (v :: vs, self)
  end.

(** [_reset_next_messageID(start)] *)
Definition _reset_next_messageID (self : t) (start : Z) : t :=
  set_messageID_iter self start.

(** [uri_from_options]: the host is taken from the first UriHost
    option. *)
Fixpoint host_from_options (opts : list CoapOption) : result (option string) :=
  match opts with
  | [] => Ok None
  | UriHost v :: _ =>
      match v with
      | None => Raise (URIError "empty Uri-Host" "")
      | Some host =>
          if pystr.nonempty host && negb (pystr.startswith "[" host)
          then Ok (Some (urllib.quote host "/"))
          else Ok (Some host)
      end
  | _ :: rest => host_from_options rest
  end.

(** [uri_from_options]: every UriPort option overrides the port. *)
Fixpoint port_from_options (port : Z) (opts : list CoapOption) : result Z :=
  match opts with
  | [] => Ok port
  | UriPort v :: rest =>
      match v with
      | None => Raise (URIError "empty Uri-Port" "")
      | Some p => port_from_options p rest
      end
  | _ :: rest => port_from_options port rest
  end.

Section Methods.
Context (env : Env).

(** [_key_for_sockaddr(sockaddr, family, security_mode)] *)
Definition _key_for_sockaddr (sockaddr : sockaddr_t) (family : option Z)
    (security_mode : option Z) : result Key :=
  let ip_literal := sa_host sockaddr in
  in_addr ←
    match family with
    | None => Ok (util.to_net_unicode env ip_literal)
    | Some f =>
        match inet_pton env f ip_literal with
        | Some packed => Ok packed
        | None => Raise socket_error
        end
    end;
  Ok (family, in_addr, sa_port sockaddr, security_mode).

(** The segments of the path, in order, each quoted with an empty
    safe set. *)
Fixpoint path_elts (opts : list CoapOption) : list string :=
  match opts with
  | [] => []
  | UriPath segment :: rest =>
      urllib.quote (util.to_net_unicode env segment) "" :: path_elts rest
  | _ :: rest => path_elts rest
  end.

(** The clauses of the query, in order, each quoted with the safe
    set "?". *)
Fixpoint query_elts (opts : list CoapOption) : list string :=
  match opts with
  | [] => []
  | UriQuery qseg :: rest =>
      urllib.quote (util.to_net_unicode env qseg) "?" :: query_elts rest
  | _ :: rest => query_elts rest
  end.

(** The five components handed to [urlunsplit] by
    [uri_from_options] (the fragment is [None]). *)
Definition uri_components (self : t) (opts : list CoapOption)
    : result (string * string * string * string) :=
  let scheme := match security_mode self with
                | None => "coap"
                | Some _ => "coaps"
                end in
  host ← host_from_options opts;
  host ← match host with
         | Some h => Ok h
         | None => attr (uri_host self)
         end;
  port ← port_from_options (port self) opts;
  default ← _port_for_scheme scheme;
  let netloc := if Z.eqb port default then host
                else String.append host (String ":" (pystr.of_Z port)) in
  let path := pystr.join "/" (EmptyString :: path_elts opts) in
  let path := if pystr.nonempty path then path else "/" in
  let query := pystr.join "&" (query_elts opts) in
  Ok (scheme, netloc, path, query).

(** [uri_from_options(opts)] *)
Definition uri_from_options (self : t) (opts : list CoapOption) : result string :=
  '(scheme, netloc, path, query) ← uri_components self opts;
  Ok (urlparse.urlunsplit scheme netloc path query EmptyString).

(** [_canonical_sockinfo(sockaddr, family, security_mode, host, port)] *)
Definition _canonical_sockinfo (st : State) (sockaddr : option sockaddr_t)
    (family : option Z) (security_mode : option Z)
    (host : option string) (port : Z) : result (option Z * sockaddr_t) :=
  r ← match sockaddr with
      | Some sa =>
          key ← _key_for_sockaddr sa family security_mode;
          match registry st !! key with
          | Some o =>
              ep ← deref st o;
              Ok (inl (Endpoint.family ep, Endpoint.sockaddr ep))
          | None => Ok (inr (Some (sa_host sa), sa_port sa))
          end
      | None => Ok (inr (host, port))
      end;
  match r with
  | inl found => Ok found
  | inr (host, port) =>
      match host with
      | None => Raise ValueError
      | Some host =>
          gai ←
            match family with
            | None =>
                Ok {| ai_family := None; ai_socktype := None; ai_proto := None;
                      ai_canonname := host;
                      ai_sockaddr := {| sa_host := host; sa_port := port; sa_rest := [] |} |}
            | Some f =>
                match getaddrinfo env host port f SOCK_DGRAM 0
                        (Z.lor (Z.lor (Z.lor AI_ADDRCONFIG AI_V4MAPPED) AI_NUMERICHOST)
                           AI_NUMERICSERV) with
                | inl code => Raise (gaierror code)
                | inr [] => Raise IndexError
                | inr (gai :: _) => Ok gai
                end
            end;
          Ok (ai_family gai, ai_sockaddr gai)
      end
  end.

(** The arguments of the constructor. *)
Record args : Type := {
  a_sockaddr : option sockaddr_t;
  a_family : option Z;
  a_security_mode : option Z;
  a_host : option string;
  a_port : Z
}.

(** The two registry lookups shared by [lookup_endpoint] and
    [__new__]: the instance found, if any, and otherwise the
    canonical key, family and socket address. *)
Definition find_instance (st : State) (a : args)
    : result (objid + (Key * option Z * sockaddr_t)) :=
  instance ←
    match a_sockaddr a with
    | Some sa =>
        key ← _key_for_sockaddr sa (a_family a) (a_security_mode a);
        Ok (registry st !! key)
    | None => Ok None
    end;
  match instance with
  | Some o => Ok (inl o)
  | None =>
      '(family, sockaddr) ← _canonical_sockinfo st (a_sockaddr a) (a_family a)
                               (a_security_mode a) (a_host a) (a_port a);
      key ← _key_for_sockaddr sockaddr family (a_security_mode a);
      match registry st !! key with
      | Some o => Ok (inl o)
      | None => Ok (inr (key, family, sockaddr))
      end
  end.

(** [lookup_endpoint] *)
Definition lookup_endpoint (st : State) (a : args) : result (option objid) :=
  r ← find_instance st a;
  match r with
  | inl o => Ok (Some o)
  | inr _ => Ok None
  end.

(** [__new__]: returns the registered instance, or creates,
    registers and fills a new one.  The state is returned also when
    an exception is raised. *)
Definition __new__ (st : State) (a : args) : result objid * State :=
  match find_instance st a with
  | Raise e => (Raise e, st)
  | Ok (inl o) => (Ok o, st)
  | Ok (inr (key, family, sockaddr)) =>
      let o := length (heap st) in
      let host := sa_host sockaddr in
      let port := sa_port sockaddr in
      let instance :=
        {| Endpoint.family := family; in_addr := key.1.1.2; Endpoint.port := port;
           security_mode := a_security_mode a; Endpoint.sockaddr := sockaddr;
           uri_host := None; base_uri := None; messageID_iter := None |} in
      let st1 := {| registry := <[key := o]> (registry st);
                    heap := heap st ++ [instance] |} in
      let text :=
        if option_Z_eqb (Some AF_INET) family then
          match inet_ntop env AF_INET (in_addr instance) with
          | Some s => Ok s
          | None => Raise socket_error
          end
        else if option_Z_eqb (Some AF_INET6) family then
          match inet_ntop env AF_INET6 (in_addr instance) with
          | Some s => Ok (String "[" (String.append s "]"))
          | None => Raise socket_error
          end
        else Ok host in
      match text with
      | Raise e => (Raise e, st1)
      | Ok s =>
          (Ok o, {| registry := registry st1;
                    heap := <[o := set_uri_host instance s]> (heap st1) |})
      end
  end.

(** [__init__], with the value drawn by [random.randint(0, 65535)]. *)
Definition __init__ (st : State) (self : objid) (rnd : Z) : result unit * State :=
  match deref st self with
  | Raise e => (Raise e, st)
  | Ok e =>
      match uri_from_options e [] with
      | Raise x => (Raise x, st)
      | Ok b =>
          let e' := _reset_next_messageID (set_base_uri e b) rnd in
          (Ok tt, {| registry := registry st; heap := <[self := e']> (heap st) |})
      end
  end.

(** The call [Endpoint(...)]: [__new__], then [__init__] on the
    instance it returned. *)
Definition create (st : State) (a : args) (rnd : Z) : result objid * State :=
  match __new__ st a with
  | (Raise e, st') => (Raise e, st')
  | (Ok o, st') =>
      match __init__ st' o rnd with
      | (Raise e, st'') => (Raise e, st'')
      | (Ok _, st'') => (Ok o, st'')
      end
  end.

(** [get_peer_endpoint(sockaddr, host, port)] *)
Definition get_peer_endpoint (st : State) (self : t) (sockaddr : option sockaddr_t)
    (host : option string) (port : Z) (rnd : Z) : result objid * State :=
  let sa :=
    match sockaddr with
    | Some sa => Ok sa
    | None =>
        match host with
        | None => Raise ValueError
        | Some h => Ok {| sa_host := h; sa_port := port; sa_rest := [] |}
        end
    end in
  match sa with
  | Raise e => (Raise e, st)
  | Ok sa =>
      create st {| a_sockaddr := Some sa; a_family := family self;
                   a_security_mode := security_mode self;
                   a_host := None; a_port := coapy.COAP_PORT |} rnd
  end.

(** [next_messageID] on the instance [self] of the store. *)
Definition next_messageID_at (st : State) (self : objid) : result Z * State :=
  match (e ← deref st self; next_messageID e) with
  | Raise x => (Raise x, st)
  | Ok (v, e') => (Ok v, {| registry := registry st; heap := <[self := e']> (heap st) |})
  end.

(** [is_same_host(host)] *)
Definition is_same_host (st : State) (self : t) (host : string) : result bool :=
  match _canonical_sockinfo st None (family self) None (Some host) coapy.COAP_PORT with
  | Raise (gaierror code) =>
      if negb (Z.eqb EAI_NONAME code) then Raise (gaierror code) else Ok false
  | Raise e => Raise e
  | Ok (family, sockaddr) =>
      '(family, addr, port, security_mode) ← _key_for_sockaddr sockaddr family None;
      Ok (option_Z_eqb (Endpoint.family self) family && String.eqb (in_addr self) addr)
  end.

(** The body of the two loops of [uri_to_options]:
    segment = bytes(segment); segment = urllib.unquote(segment);
    segment = segment.decode('utf-8') *)
Definition decode_segment (segment : string) : result string :=
  segment ← codecs.bytes segment;
  codecs.decode_utf8 (urllib.unquote segment).

(** for segment in segments: ...; opts.append(mk(segment)) *)
Fixpoint append_segments (mk : string -> CoapOption) (segments : list string)
    (opts : list CoapOption) : result (list CoapOption) :=
  match segments with
  | [] => Ok opts
  | segment :: rest =>
      segment ← decode_segment segment;
      append_segments mk rest (opts ++ [mk segment])
  end.

(** [x is None] for a field of the tuple returned by [urlsplit]:
    these fields are strings. *)
Definition is_None (field : string) : bool := false.

(** [uri_to_options(uri, base_uri)] *)
Definition uri_to_options (st : State) (self : t) (uri : string)
    (base_uri : option string) : result (list CoapOption) :=
  base_uri ← match base_uri with
             | None => attr (Endpoint.base_uri self)
             | Some b => Ok b
             end;
  uri ← urlparse.urljoin base_uri uri;
  res ← urlparse.urlsplit uri;
  let opts := [] in
  if negb (pystr.nonempty (urlparse.scheme res))
     || (is_None (urlparse.netloc res) && is_None (urlparse.path res))
     || pystr.nonempty (urlparse.fragment res)
  then Raise (URIError "not absolute" uri)
  else
    let scheme := pystr.lower (urlparse.scheme res) in
    if negb (String.eqb scheme "coap" || String.eqb scheme "coaps")
    then Raise (URIError "invalid scheme" (urlparse.scheme res))
    else
      opts ←
        match urlparse.hostname res with
        | Some hostname =>
            if pystr.nonempty hostname then
              let host := urllib.unquote_text hostname in
              same ← is_same_host st self host;
              if negb same then Ok (opts ++ [UriHost (Some host)]) else Ok opts
            else Ok opts
        | None => Ok opts
        end;
      port ← urlparse.port res;
      port ← match port with
             | None => _port_for_scheme scheme
             | Some p => Ok p
             end;
      let opts := if negb (Z.eqb port (Endpoint.port self))
                  then opts ++ [UriPort (Some port)] else opts in
      let path := urlparse.path res in
      opts ←
        (if pystr.nonempty path && negb (String.eqb "/" path) then
           let path := if pystr.startswith "/" path then pystr.tail path else path in
           append_segments UriPath (pystr.split "/" path) opts
         else Ok opts);
      let query := urlparse.query res in
      if pystr.nonempty query
      then append_segments UriQuery (pystr.split "&" query) opts
      else Ok opts.

(** One operation on the class state: a constructor call with any
    arguments and any outcome, or a message-ID draw on an instance. *)
Inductive step : State -> State -> Prop :=
| step_create (st : State) (a : args) (rnd : Z) (r : result objid) (st' : State) :
    create st a rnd = (r, st') -> step st st'
| step_next_messageID (st : State) (self : objid) (r : result Z) (st' : State) :
    next_messageID_at st self = (r, st') -> step st st'.

(** The states the class can be in, starting from the empty registry. *)
Definition reachable (st : State) : Prop := rtc step initial_state st.

End Methods.

(** Every registered instance exists and carries the key it is
    registered under. *)
Definition registry_ok (st : State) : Prop :=
  forall (k : Key) (o : objid),
    registry st !! k = Some o ->
    exists e, heap st !! o = Some e /\ key_of e = k.

(** [st'] keeps the registry entries and the instances of [st], with
    their keys. *)
Definition extends (st st' : State) : Prop :=
  (forall (k : Key) (o : objid),
      registry st !! k = Some o -> registry st' !! k = Some o)
  /\ (forall (o : objid) (e : t),
        heap st !! o = Some e ->
        exists e', heap st' !! o = Some e' /\ key_of e' = key_of e).

(** *** Notions used to state the properties of the URI translation *)

(** The list holds no UriHost and no UriPort option. *)
Definition no_host_port (opts : list CoapOption) : bool :=
  forallb (fun o => negb (is_UriHost o || is_UriPort o)) opts.

(** The values of the UriPath options of a list, in order. *)
Fixpoint UriPath_values (opts : list CoapOption) : list string :=
  match opts with
  | [] => []
  | UriPath v :: rest => v :: UriPath_values rest
  | _ :: rest => UriPath_values rest
  end.

(** The values of the UriQuery options of a list, in order. *)
Fixpoint UriQuery_values (opts : list CoapOption) : list string :=
  match opts with
  | [] => []
  | UriQuery v :: rest => v :: UriQuery_values rest
  | _ :: rest => UriQuery_values rest
  end.

(** The absolute URI that [uri_to_options] works on, and its split
    form: [uri] resolved against [base_uri], or against the base URI of
    the endpoint when none is given. *)
Definition resolved (self : t) (uri : string) (base_uri : option string)
    : result (string * urlparse.SplitResult) :=
  base_uri ← match base_uri with
             | None => attr (Endpoint.base_uri self)
             | Some b => Ok b
             end;
  uri ← urlparse.urljoin base_uri uri;
  res ← urlparse.urlsplit uri;
  Ok (uri, res).

(** The segments of a path as they appear in the text: none for the
    empty path and for "/", otherwise the pieces between the slashes
    after one leading slash. *)
Definition path_pieces (path : string) : list string :=
  if pystr.nonempty path && negb (String.eqb "/" path)
  then pystr.split "/" (if pystr.startswith "/" path then pystr.tail path else path)
  else [].

(** The clauses of a query as they appear in the text. *)
Definition query_pieces (query : string) : list string :=
  if pystr.nonempty query then pystr.split "&" query else [].

(** The port a split URI stands for: the one it names, else the default
    of its scheme. *)
Definition effective_port (scheme : string) (p : option Z) : result Z :=
  match p with
  | None => _port_for_scheme scheme
  | Some n => Ok n
  end.

(** Text that percent-encoding leaves as it is: ASCII letters, digits,
    "_", "." and "-", and the characters of [safe]. *)
Definition unreserved (safe : string) (s : string) : bool :=
  pystr.all_chars
    (fun c => pystr.contains c urllib.always_safe || pystr.contains c safe) s.

(** A text that can stand as the authority of a URI: not empty, free
    of the delimiters "/", "?" and "#", and with a closing bracket
    exactly when it has an opening one. *)
Definition authority_text (host : string) : bool :=
  pystr.nonempty host
  && pystr.all_chars
       (fun c => negb (Ascii.eqb c "/" || Ascii.eqb c "?" || Ascii.eqb c "#")) host
  && Bool.eqb (pystr.contains "[" host) (pystr.contains "]" host).

(** The steps of [uri_to_options] taken one at a time, for stating
    what the whole does. *)

(** The resolved URI is rejected as not absolute. *)
Definition not_absolute (res : urlparse.SplitResult) : bool :=
  negb (pystr.nonempty (urlparse.scheme res)) || pystr.nonempty (urlparse.fragment res).

(** The scheme is neither "coap" nor "coaps", whatever the case of its
    letters. *)
Definition invalid_scheme (res : urlparse.SplitResult) : bool :=
  negb (String.eqb (pystr.lower (urlparse.scheme res)) "coap"
        || String.eqb (pystr.lower (urlparse.scheme res)) "coaps").

(** The UriHost option, if one is due. *)
Definition host_options (env : Env) (st : State) (self : t)
    (res : urlparse.SplitResult) : result (list CoapOption) :=
  match urlparse.hostname res with
  | Some hostname =>
      if pystr.nonempty hostname then
        is_same_host env st self (urllib.unquote_text hostname) ≫= fun same : bool =>
        Ok (if same then [] else [UriHost (Some (urllib.unquote_text hostname))])
      else Ok []
  | None => Ok []
  end.

(** The UriPort option, if one is due. *)
Definition port_options (self : t) (res : urlparse.SplitResult)
    : result (list CoapOption) :=
  p ← urlparse.port res;
  n ← effective_port (pystr.lower (urlparse.scheme res)) p;
  Ok (if Z.eqb n (port self) then [] else [UriPort (Some n)]).

(** The pieces of a path or query, decoded one after the other. *)
Fixpoint decode_all (pieces : list string) : result (list string) :=
  match pieces with
  | [] => Ok []
  | piece :: rest =>
      segment ← decode_segment piece;
      segments ← decode_all rest;
      Ok (segment :: segments)
  end.

End Endpoint.

(** ** A small platform for running the code on concrete inputs

    It knows dotted-quad IPv4 literals only: [getaddrinfo] answers for
    them, reports [EAI_ADDRFAMILY] (-9) for a text with a colon asked
    under [AF_INET], and [EAI_NONAME] for anything else, as a resolver
    does when [AI_NUMERICHOST] is set.  Normalisation is the identity. *)

Module sample.
Import socket.

Definition octet (s : string) : option N :=
  if pystr.nonempty s && pystr.all_chars pystr.is_digit s
     && Z.leb (pystr.digits_value 0 s) 255
  then Some (Z.to_N (pystr.digits_value 0 s)) else None.

Definition ipv4_pton (family : Z) (text : string) : option string :=
  if Z.eqb family AF_INET then
    match pystr.split "." text with
    | [a; b; c; d] =>
        match octet a, octet b, octet c, octet d with
        | Some a, Some b, Some c, Some d =>
            Some (String (ascii_of_N a) (String (ascii_of_N b)
                   (String (ascii_of_N c) (String (ascii_of_N d) EmptyString))))
        | _, _, _, _ => None
        end
    | _ => None
    end
  else None.

Definition ipv4_ntop (family : Z) (packed : string) : option string :=
  if Z.eqb family AF_INET then
    match packed with
    | String a (String b (String c (String d EmptyString))) =>
        Some (pystr.join "." (map (fun x => pystr.of_Z (Z.of_N (pystr.byte x))) [a; b; c; d]))
    | _ => None
    end
  else None.

Definition ipv4_getaddrinfo (host : string) (port family socktype proto flags : Z)
    : Z + list addrinfo :=
  if Z.eqb family AF_INET || Z.eqb family AF_UNSPEC then
    match ipv4_pton AF_INET host with
    | Some _ =>
        inr [ {| ai_family := Some AF_INET; ai_socktype := Some socktype;
                 ai_proto := Some 17; ai_canonname := EmptyString;
                 ai_sockaddr := {| sa_host := host; sa_port := port; sa_rest := [] |} |} ]
    | None =>
        if Z.eqb family AF_INET && pystr.contains ":" host then inl (-9)
        else inl EAI_NONAME
    end
  else inl EAI_NONAME.

Definition env : Env :=
  {| getaddrinfo := ipv4_getaddrinfo;
     inet_pton := ipv4_pton;
     inet_ntop := ipv4_ntop;
     normalize_NFC := fun s => s;
     normalize_NFC_ascii := fun s _ => eq_refl |}.

(** Endpoint(sockaddr=(name, port), family=None) *)
Definition named (name : string) (port : Z) : Endpoint.args :=
  {| Endpoint.a_sockaddr := Some {| sa_host := name; sa_port := port; sa_rest := [] |};
     Endpoint.a_family := None; Endpoint.a_security_mode := None;
     Endpoint.a_host := None; Endpoint.a_port := coapy.COAP_PORT |}.

(** Endpoint(host=literal, family=AF_INET) *)
Definition inet (literal : string) : Endpoint.args :=
  {| Endpoint.a_sockaddr := None; Endpoint.a_family := Some AF_INET;
     Endpoint.a_security_mode := None;
     Endpoint.a_host := Some literal; Endpoint.a_port := coapy.COAP_PORT |}.

(** The instance named "node", as [Endpoint] leaves it when the
    random start value is 7. *)
Definition node : Endpoint.t :=
  {| Endpoint.family := None; Endpoint.in_addr := "node";
     Endpoint.port := 5683; Endpoint.security_mode := None;
     Endpoint.sockaddr := {| sa_host := "node"; sa_port := 5683; sa_rest := [] |};
     Endpoint.uri_host := Some "node"; Endpoint.base_uri := Some "coap://node/";
     Endpoint.messageID_iter := Some 7 |}.

(** The instance for the literal 127.0.0.1, as [Endpoint] leaves it
    when the random start value is 9. *)
Definition loopback : Endpoint.t :=
  {| Endpoint.family := Some AF_INET;
     Endpoint.in_addr := String (ascii_of_N 127) (String (ascii_of_N 0)
                           (String (ascii_of_N 0) (String (ascii_of_N 1) EmptyString)));
     Endpoint.port := 5683; Endpoint.security_mode := None;
     Endpoint.sockaddr := {| sa_host := "127.0.0.1"; sa_port := 5683; sa_rest := [] |};
     Endpoint.uri_host := Some "127.0.0.1";
     Endpoint.base_uri := Some "coap://127.0.0.1/";
     Endpoint.messageID_iter := Some 9 |}.

End sample.

(** * Properties *)

(** Reduce the sequencing of [result] computations. *)
Ltac py_bind := unfold mbind, result_bind, rbind in *.

(** ** The time-due queue *)

Section TimeDueOrdinalFacts.
Import TimeDueOrdinal.
Local Open Scope nat_scope.

Variable h : tdo_store.

Lemma py_le_refl (a : option Z) : py_le a a = true.
Proof. destruct a; simpl; [apply Z.leb_refl | reflexivity]. Qed.

Lemma py_le_trans (a b c : option Z) :
  py_le a b = true -> py_le b c = true -> py_le a c = true.
Proof.
  destruct a, b, c; simpl; try congruence.
  rewrite !Z.leb_le. lia.
Qed.

Lemma py_lt_not_le (a b : option Z) : py_lt a b = negb (py_le b a).
Proof.
  destruct a, b; simpl; try reflexivity.
  apply Z.ltb_antisym.
Qed.

#[local] Instance le_time_due_trans : Transitive (le_time_due h).
Proof. intros x y z. unfold le_time_due. apply py_le_trans. Qed.

Lemma RichCompareBool_EQ_found (item self : objid) :
  RichCompareBool_EQ h item self = true <-> found_for h self item.
Proof.
  unfold RichCompareBool_EQ, __eq__, found_for.
  rewrite orb_true_iff, andb_true_iff, Nat.eqb_eq.
  split.
  - intros [-> | [Hn He]]; [now left | right].
    destruct (time_due (h item)) as [t|]; [|discriminate].
    destruct (time_due (h self)) as [u|]; [|discriminate].
    simpl in He. apply Z.eqb_eq in He. subst. eauto.
  - intros [-> | [t [-> ->]]]; [now left | right].
    simpl. split; [reflexivity | apply Z.eqb_refl].
Qed.

Lemma RichCompareBool_EQ_not_found (item self : objid) :
  RichCompareBool_EQ h item self = false <-> ~ found_for h self item.
Proof.
  rewrite <- RichCompareBool_EQ_found.
  destruct (RichCompareBool_EQ h item self); split; congruence.
Qed.

(** [list.remove] succeeds exactly by deleting the first item found. *)
Lemma list_remove_Ok (queue : list objid) (self : objid) (q' : list objid) :
  list_remove h queue self = Ok q' <->
  exists pre item post,
    queue = pre ++ item :: post /\ q' = pre ++ post
    /\ found_for h self item /\ Forall (fun i => ~ found_for h self i) pre.
Proof.
  revert q'. induction queue as [|x rest IH]; intros q'; simpl.
  - split; [discriminate|].
    intros (pre & item & post & E & _). destruct pre; discriminate.
  - destruct (RichCompareBool_EQ h x self) eqn:Hx.
    + split.
      * intros [= <-]. exists [], x, rest.
        repeat split; [now apply RichCompareBool_EQ_found | constructor].
      * intros (pre & item & post & E & -> & Hf & Hpre).
        destruct pre as [|p pre]; simpl in E; injection E as <- ->.
        -- reflexivity.
        -- inversion Hpre as [|? ? Hp _]; subst.
           apply RichCompareBool_EQ_found in Hx. contradiction.
    + destruct (list_remove h rest self) as [r|e] eqn:Hr.
      * split.
        -- intros [= <-].
           destruct (proj1 (IH r) eq_refl) as (pre & item & post & -> & -> & Hf & Hpre).
           exists (x :: pre), item, post. repeat split; try assumption.
           constructor; [now apply RichCompareBool_EQ_not_found | assumption].
        -- intros (pre & item & post & E & -> & Hf & Hpre).
           destruct pre as [|p pre]; simpl in E; injection E as <- ->.
           ++ apply RichCompareBool_EQ_found in Hf. congruence.
           ++ inversion Hpre; subst. f_equal. simpl. f_equal.
              assert (Ok r = Ok (pre ++ post)) as [= ->]; [|reflexivity].
              apply IH. exists pre, item, post. auto.
      * split; [discriminate|].
        intros (pre & item & post & E & -> & Hf & Hpre).
        destruct pre as [|p pre]; simpl in E; injection E as <- ->.
        -- apply RichCompareBool_EQ_found in Hf. congruence.
        -- inversion Hpre; subst.
           assert (Raise e = Ok (pre ++ post)) as Habs; [|discriminate].
           apply IH. exists pre, item, post. auto.
Qed.

(** [list.remove] fails, with [ValueError], exactly when no item is
    found. *)
Lemma list_remove_Raise (queue : list objid) (self : objid) (e : exn) :
  list_remove h queue self = Raise e <->
  e = ValueError /\ Forall (fun i => ~ found_for h self i) queue.
Proof.
  induction queue as [|x rest IH]; simpl.
  - split; [intros [= <-]; split; [reflexivity | constructor] | intros [-> _]; reflexivity].
  - destruct (RichCompareBool_EQ h x self) eqn:Hx.
    + split; [discriminate|]. intros [_ Hall]. inversion Hall; subst.
      apply RichCompareBool_EQ_found in Hx. contradiction.
    + destruct (list_remove h rest self) as [r|e'].
      * split; [discriminate|]. intros [He Hall]. inversion Hall; subst.
        assert (Ok r = Raise ValueError) as Habs; [|discriminate].
        apply IH. auto.
      * split.
        -- intros [= ->]. destruct (proj1 IH eq_refl) as [-> Hall].
           split; [reflexivity|]. constructor; [|assumption].
           now apply RichCompareBool_EQ_not_found.
        -- intros [-> Hall]. inversion Hall; subst.
           apply (proj2 IH). auto.
Qed.

End TimeDueOrdinalFacts.

Section BisectFacts.
Import TimeDueOrdinal.
Local Open Scope nat_scope.

Variable h : tdo_store.

(** On a list in which [x < item] is monotone along the positions, the
    bisection loop returns the boundary between the items that are not
    above [x] and those that are. *)
Lemma bisect_loop_boundary (a : list objid) (x : objid) :
  (forall i j yi yj, i <= j -> a !! i = Some yi -> a !! j = Some yj ->
     __lt__ h x yi = true -> __lt__ h x yj = true) ->
  forall fuel lo hi,
    lo <= hi -> hi <= length a -> hi - lo <= fuel ->
    (forall i y, i < lo -> a !! i = Some y -> __lt__ h x y = false) ->
    (forall i y, hi <= i -> a !! i = Some y -> __lt__ h x y = true) ->
    let r := bisect_loop h fuel a x lo hi in
    lo <= r <= hi
    /\ (forall i y, i < r -> a !! i = Some y -> __lt__ h x y = false)
    /\ (forall i y, r <= i -> a !! i = Some y -> __lt__ h x y = true).
Proof.
  intros Hmono. induction fuel as [|fuel IH]; intros lo hi Hle Hlen Hfuel Hlo Hhi;
    cbn [bisect_loop]; cbv zeta.
  - assert (lo = hi) as -> by lia. split; [lia | split; assumption].
  - destruct (Nat.ltb lo hi) eqn:Hlt.
    2:{ apply Nat.ltb_ge in Hlt. assert (lo = hi) as -> by lia.
        split; [lia | split; assumption]. }
    apply Nat.ltb_lt in Hlt.
    assert (Hmid : lo <= (lo + hi) / 2 < hi).
    { split; [apply Nat.div_le_lower_bound | apply Nat.Div0.div_lt_upper_bound]; lia. }
    destruct (a !! ((lo + hi) / 2)) as [y|] eqn:Hy.
    2:{ apply lookup_ge_None in Hy. lia. }
    destruct (__lt__ h x y) eqn:Hxy.
    + destruct (IH lo ((lo + hi) / 2)) as (Hr & Hb & Ha); try lia; auto.
      { intros i z Hi Hz. eapply Hmono; [exact Hi | exact Hy | exact Hz | exact Hxy]. }
      split; [lia | split; assumption].
    + destruct (IH (S ((lo + hi) / 2)) hi) as (Hr & Hb & Ha); try lia; auto.
      { intros i z Hi Hz. destruct (__lt__ h x z) eqn:Hxz; [|reflexivity].
        rewrite <- Hxy. symmetry.
        eapply (Hmono i ((lo + hi) / 2)); [lia | exact Hz | exact Hy | exact Hxz]. }
      split; [lia | split; assumption].
Qed.

Lemma lt_monotone_on_sorted (a : list objid) (x : objid) :
  StronglySorted (le_time_due h) a ->
  forall i j yi yj, i <= j -> a !! i = Some yi -> a !! j = Some yj ->
    __lt__ h x yi = true -> __lt__ h x yj = true.
Proof.
  intros Hs i j yi yj Hij Hi Hj Hlt.
  assert (Hle : py_le (time_due (h yi)) (time_due (h yj)) = true).
  { destruct (decide (i = j)) as [->|Hne].
    - rewrite Hi in Hj. injection Hj as ->. apply py_le_refl.
    - rewrite <- (take_drop (S i) a) in Hs, Hj.
      apply StronglySorted_app in Hs. destruct Hs as (Hcross & _ & _).
      apply Hcross.
      + apply list_elem_of_lookup. exists i.
        rewrite lookup_take_lt; [assumption | lia].
      + apply list_elem_of_lookup. exists (j - S i).
        rewrite lookup_app_r in Hj; rewrite length_take in *.
        * replace (j - S i `min` length a) with (j - S i) in Hj; [assumption|].
          apply lookup_lt_Some in Hi. lia.
        * apply lookup_lt_Some in Hi. lia. }
  unfold __lt__ in *. rewrite py_lt_not_le in *.
  apply negb_true_iff in Hlt. apply negb_true_iff.
  destruct (py_le (time_due (h yj)) (time_due (h x))) eqn:E; [|reflexivity].
  rewrite <- Hlt. symmetry. eapply py_le_trans; eassumption.
Qed.

(** [bisect.insort] keeps a sorted list sorted. *)
Lemma insort_sorted (a : list objid) (x : objid) :
  StronglySorted (le_time_due h) a ->
  StronglySorted (le_time_due h) (insort h a x).
Proof.
  intros Hs. unfold insort, list_insert_at, bisect_right.
  destruct (bisect_loop_boundary a x (lt_monotone_on_sorted a x Hs)
              (length a) 0 (length a)) as (Hr & Hb & Ha); try lia.
  { intros i y Hi Hy. apply lookup_lt_Some in Hy. lia. }
  set (r := bisect_loop h (length a) a x 0 (length a)) in *.
  rewrite <- (take_drop r a) in Hs.
  apply StronglySorted_app in Hs. destruct Hs as (Hcross & Hl & Hd).
  apply StronglySorted_app_2; [| assumption |].
  - intros y z Hy Hz. apply list_elem_of_lookup in Hy. destruct Hy as [i Hi].
    assert (Hyx : le_time_due h y x).
    { assert (i < r).
      { apply lookup_lt_Some in Hi. rewrite length_take in Hi. lia. }
      rewrite lookup_take_lt in Hi by assumption.
      specialize (Hb i y H Hi). unfold __lt__ in Hb. rewrite py_lt_not_le in Hb.
      apply negb_false_iff in Hb. exact Hb. }
    apply elem_of_cons in Hz. destruct Hz as [-> | Hz]; [assumption|].
    apply Hcross; [|assumption]. apply list_elem_of_lookup. eauto.
  - constructor; [assumption|]. apply Forall_forall. intros z Hz.
    apply list_elem_of_lookup in Hz.
    destruct Hz as [i Hi].
    rewrite lookup_drop in Hi.
    specialize (Ha (r + i) z ltac:(lia) Hi).
    unfold __lt__ in Ha. rewrite py_lt_not_le in Ha. apply negb_true_iff in Ha.
    unfold le_time_due.
    destruct (time_due (h x)), (time_due (h z)); simpl in *; try congruence.
    apply Z.leb_gt in Ha. apply Z.leb_le. lia.
Qed.

(** [bisect.insort] adds the entry and nothing else. *)
Lemma insort_Permutation (a : list objid) (x : objid) :
  Permutation (insort h a x) (x :: a).
Proof.
  unfold insort, list_insert_at.
  rewrite <- Permutation_middle. rewrite take_drop. reflexivity.
Qed.

Lemma list_index_first (pre post : list objid) (self : objid) :
  Forall (fun i => ~ found_for h self i) pre ->
  list_index h (pre ++ self :: post) self = Ok (length pre).
Proof.
  induction pre as [|p pre IH]; intros Hpre; simpl.
  - unfold RichCompareBool_EQ. rewrite Nat.eqb_refl. reflexivity.
  - inversion Hpre as [|? ? Hp Hrest]; subst.
    apply RichCompareBool_EQ_not_found in Hp. rewrite Hp.
    rewrite IH by assumption. reflexivity.
Qed.

Lemma list_index_Ok (queue : list objid) (self : objid) (i : nat) :
  list_index h queue self = Ok i ->
  exists item, queue !! i = Some item /\ found_for h self item.
Proof.
  revert i. induction queue as [|x rest IH]; intros i; simpl; [discriminate|].
  destruct (RichCompareBool_EQ h x self) eqn:Hx.
  - intros [= <-]. exists x. split; [reflexivity|].
    now apply RichCompareBool_EQ_found.
  - destruct (list_index h rest self) as [j|e]; [|discriminate].
    intros [= <-]. simpl. apply IH. reflexivity.
Qed.

(** Whatever entry [queue_reposition] picks, the queue keeps exactly
    its entries. *)
Lemma queue_reposition_Permutation (self : objid) (queue q' : list objid) :
  queue_reposition h self queue = Ok q' -> Permutation q' queue.
Proof.
  unfold queue_reposition, list_pop. py_bind.
  destruct (list_index h queue self) as [i|] eqn:Hi; [|discriminate].
  destruct (queue !! i) as [item|] eqn:Hitem; [|discriminate].
  intros [= <-]. rewrite insort_Permutation.
  rewrite Permutation_middle.
  rewrite <- (take_drop_middle queue i item Hitem) at 3. reflexivity.
Qed.

(** When no entry in front of [self] is found in its place, that is
    none of them has the due time [self] has now, [queue_reposition]
    moves [self] itself and the queue comes out sorted. *)
Lemma queue_reposition_sorted (self : objid) (pre post : list objid) :
  Forall (fun i => ~ found_for h self i) pre ->
  StronglySorted (le_time_due h) (pre ++ post) ->
  queue_reposition h self (pre ++ self :: post) = Ok (insort h (pre ++ post) self)
  /\ StronglySorted (le_time_due h) (insort h (pre ++ post) self).
Proof.
  intros Hpre Hs. split; [|now apply insort_sorted].
  unfold queue_reposition, list_pop. py_bind.
  rewrite list_index_first by assumption.
  rewrite list_lookup_middle by reflexivity.
  rewrite take_app_length.
  replace (pre ++ self :: post) with ((pre ++ [self]) ++ post)
    by (rewrite <- app_assoc; reflexivity).
  rewrite (drop_app_length' (pre ++ [self]) post)
    by (rewrite length_app; simpl; lia).
  reflexivity.
Qed.

End BisectFacts.

Section QueueClaims.
Import TimeDueOrdinal.
Local Open Scope nat_scope.

Lemma found_for_None (h : tdo_store) (self item : objid) :
  time_due (h self) = None -> (found_for h self item <-> item = self).
Proof.
  intros Hn. unfold found_for. split; [|now left].
  intros [-> | (t & _ & Ht)]; [reflexivity | congruence].
Qed.

(** C8 (the code departs from it).  [queue_reposition] is documented to
    move the entry itself ("Reposition this entry within queue ... only
    its position changes") and the specification has it leave the queue
    sorted.  The entry is looked up with [queue.index(self)], which
    stops at the first entry that compares equal, and entries compare
    equal when their due times are equal.  Here the queue holds the
    entries 0, 1, 2 due at 1, 5, 9; the due time of entry 2 is then set
    to 1 and entry 2 is repositioned: entry 0 is the one taken out and
    put back, entry 2 stays behind entry 1, and the queue is not
    sorted. *)
Theorem C8_reposition_picks_equal_due_entry :
  let before := store_of [Some 1; Some 5; Some 9]%Z in
  let h := set_time_due before 2 (Some 1%Z) in
  sorted_by_time_due before [0; 1; 2] = true
  /\ queue_reposition h 2 [0; 1; 2] = Ok [1; 2; 0]
  /\ sorted_by_time_due h [1; 2; 0] = false.
Proof. repeat split; vm_compute; reflexivity. Qed.

(** C10, the claim as stated is refuted: removing an entry whose
    [time_due] is [None] does not always fail.  The list search accepts
    the identical object before [__eq__] is asked, so the entry is found
    and removed. *)
Lemma C10_counterexample :
  ~ (forall (h : tdo_store) (self : objid) (queue : list objid),
       time_due (h self) = None -> In self queue ->
       exists e, queue_remove h self queue = Raise e).
Proof.
  intros Hclaim.
  destruct (Hclaim (store_of [None]) 0 [0] eq_refl (or_introl eq_refl)) as [e He].
  vm_compute in He. discriminate He.
Qed.

(** C10 (amended).  [__eq__] is computed from the two [time_due]
    values only and is false whenever the left one is [None], so such an
    entry is not equal to itself under [==].  [queue_remove] deletes the
    first entry that is the argument object itself or whose [time_due]
    is not [None] and equals the argument's; that entry need not be the
    argument (last conjunct: with entries 0 and 1 both due at 5,
    removing entry 1 deletes entry 0).  It fails, with [ValueError],
    exactly when there is no such entry.  For an argument whose
    [time_due] is [None] it deletes the first occurrence of the argument
    itself, and fails exactly when the argument is not in the queue. *)
Theorem C10_equality_and_queue_remove (h : tdo_store) (self : objid) (queue : list objid) :
  (forall other,
      __eq__ h self other =
      match time_due (h self) with
      | None => false
      | Some t => py_eq (Some t) (time_due (h other))
      end)
  /\ (forall q', queue_remove h self queue = Ok q' <->
        exists pre item post,
          queue = pre ++ item :: post /\ q' = pre ++ post
          /\ found_for h self item /\ Forall (fun i => ~ found_for h self i) pre)
  /\ (forall e, queue_remove h self queue = Raise e <->
        e = ValueError /\ Forall (fun i => ~ found_for h self i) queue)
  /\ (time_due (h self) = None ->
      (forall q', queue_remove h self queue = Ok q' <->
         exists pre post,
           queue = pre ++ self :: post /\ q' = pre ++ post /\ ~ In self pre)
      /\ ((exists e, queue_remove h self queue = Raise e) <-> ~ In self queue))
  /\ queue_remove (store_of [Some 5; Some 5]%Z) 1 [0; 1] = Ok [1].
Proof.
  split; [|split; [|split; [|split]]].
  - intros other. unfold __eq__. destruct (time_due (h self)); reflexivity.
  - intros q'. apply list_remove_Ok.
  - intros e. apply list_remove_Raise.
  - intros Hn. split.
    + intros q'. unfold queue_remove. rewrite list_remove_Ok. split.
      * intros (pre & item & post & -> & -> & Hf & Hpre).
        apply (found_for_None h self item Hn) in Hf. subst item.
        exists pre, post. repeat split.
        intros Hin. apply (proj1 (Forall_forall _ _) Hpre self).
        -- apply list_elem_of_In. exact Hin.
        -- now left.
      * intros (pre & post & -> & -> & Hnin).
        exists pre, self, post. repeat split; [now left|].
        apply Forall_forall. intros i Hi Hf.
        apply (found_for_None h self i Hn) in Hf. subst i.
        apply Hnin. apply list_elem_of_In. exact Hi.
    + unfold queue_remove. split.
      * intros [e He]. apply list_remove_Raise in He. destruct He as [_ Hall].
        intros Hin. apply (proj1 (Forall_forall _ _) Hall self).
        -- apply list_elem_of_In. exact Hin.
        -- now left.
      * intros Hnin. exists ValueError. apply list_remove_Raise.
        split; [reflexivity|]. apply Forall_forall. intros i Hi Hf.
        apply (found_for_None h self i Hn) in Hf. subst i.
        apply Hnin. apply list_elem_of_In. exact Hi.
  - vm_compute. reflexivity.
Qed.

(** An entry without due time, behind an entry due at 3, is removed. *)
Lemma C10_witness :
  time_due (store_of [None; Some 3%Z] 0) = None
  /\ queue_remove (store_of [None; Some 3%Z]) 0 [1; 0] = Ok [1].
Proof.
  split; [reflexivity|].
  apply (proj1 (proj2 (proj2 (proj2
           (C10_equality_and_queue_remove (store_of [None; Some 3%Z]) 0 [1; 0])))) eq_refl).
  exists [1], []. split; [reflexivity|]. split; [reflexivity|].
  intros [H | []]. discriminate H.
Defined.

End QueueClaims.

(** ** Message identifiers *)

Section MessageIDFacts.
Import Endpoint.

Lemma set_messageID_iter_same (e : t) (c : Z) :
  messageID_iter e = Some c -> set_messageID_iter e c = e.
Proof. destruct e; simpl; intros ->; reflexivity. Qed.

Lemma set_messageID_iter_twice (e : t) (c d : Z) :
  set_messageID_iter (set_messageID_iter e c) d = set_messageID_iter e d.
Proof. reflexivity. Qed.

Lemma next_messageID_value (e : t) (c : Z) :
  messageID_iter e = Some c ->
  next_messageID e = Ok (c mod 65536, set_messageID_iter e (c + 1)).
Proof. intros H. unfold next_messageID. rewrite H. reflexivity. Qed.

(** The values of [n] consecutive calls are the counter values
    [c, c+1, ...] reduced modulo 65536. *)
Lemma next_messageIDs_values (n : nat) :
  forall (e : t) (c : Z),
    messageID_iter e = Some c ->
    next_messageIDs n e =
    Ok ((fun i : nat => (c + Z.of_nat i) mod 65536) <$> seq 0 n,
        set_messageID_iter e (c + Z.of_nat n)).
Proof.
  induction n as [|n IH]; intros e c Hc.
  - simpl. rewrite Z.add_0_r, set_messageID_iter_same by assumption. reflexivity.
  - cbn [next_messageIDs]. rewrite (next_messageID_value e c Hc). py_bind.
    rewrite (IH (set_messageID_iter e (c + 1)) (c + 1) eq_refl).
    rewrite set_messageID_iter_twice.
    cbn [seq fmap list_fmap]. rewrite <- seq_shift, <- list_fmap_compose.
    rewrite Z.add_0_r. f_equal. f_equal; [f_equal|].
    + apply list_fmap_ext. intros _ i _. simpl. f_equal. lia.
    + f_equal. lia.
Qed.

Lemma mod_65536_inj (c : Z) (i j : nat) :
  (Z.of_nat i < 65536) -> (Z.of_nat j < 65536) ->
  (c + Z.of_nat i) mod 65536 = (c + Z.of_nat j) mod 65536 -> i = j.
Proof.
  intros Hi Hj H.
  pose proof (Z.div_mod (c + Z.of_nat i) 65536 ltac:(lia)) as Ei.
  pose proof (Z.div_mod (c + Z.of_nat j) 65536 ltac:(lia)) as Ej.
  rewrite H in Ei.
  set (qi := (c + Z.of_nat i) / 65536) in *.
  set (qj := (c + Z.of_nat j) / 65536) in *.
  set (r := (c + Z.of_nat j) mod 65536) in *.
  clearbody qi qj r. lia.
Qed.

Lemma messageID_values_cycle (c : Z) (n : nat) :
  Z.of_nat n <= 65536 ->
  let vs := (fun i : nat => (c + Z.of_nat i) mod 65536) <$> seq 0 n in
  length vs = n
  /\ NoDup vs
  /\ (forall i a b, vs !! i = Some a -> vs !! S i = Some b ->
        b = a + 1 \/ (a = 65535 /\ b = 0))
  /\ (forall i j, vs !! i = Some 65535 -> vs !! j = Some 65535 -> i = j).
Proof.
  intros Hn vs. subst vs.
  assert (Hlook : forall i v,
             ((fun i : nat => (c + Z.of_nat i) mod 65536) <$> seq 0 n) !! i = Some v ->
             (i < n)%nat /\ v = (c + Z.of_nat i) mod 65536).
  { intros i v Hv. rewrite list_lookup_fmap in Hv.
    destruct (seq 0 n !! i) as [k|] eqn:Hk; [|discriminate].
    apply lookup_seq in Hk. destruct Hk as [-> Hlt].
    simpl in Hv. injection Hv as <-. split; [assumption | reflexivity]. }
  split; [|split; [|split]].
  - rewrite length_fmap. apply length_seq.
  - apply NoDup_fmap_2_strong; [|apply NoDup_seq].
    intros i j Hi Hj Heq. apply elem_of_seq in Hi, Hj.
    apply (mod_65536_inj c); [lia | lia | exact Heq].
  - intros i a b Ha Hb.
    apply Hlook in Ha, Hb. destruct Ha as [_ ->], Hb as [_ ->].
    replace (c + Z.of_nat (S i)) with ((c + Z.of_nat i) + 1) by lia.
    pose proof (Z.mod_pos_bound (c + Z.of_nat i) 65536 ltac:(lia)) as Hb.
    destruct (Z.eq_dec ((c + Z.of_nat i) mod 65536) 65535) as [E|E].
    + right. split; [assumption|].
      rewrite Z.add_mod by lia. rewrite E. reflexivity.
    + left. rewrite Z.add_mod by lia.
      rewrite (Z.mod_small 1) by lia. apply Z.mod_small. lia.
  - intros i j Hi Hj.
    apply Hlook in Hi, Hj. destruct Hi as [Hi Ei], Hj as [Hj Ej].
    apply (mod_65536_inj c); [lia | lia | congruence].
Qed.

(** C6.  For an endpoint whose iterator counter is [c], the cursor is
    [c mod 65536].  [next_messageID] returns the cursor, which lies in
    [0, 65535], and the new cursor is the old one plus one modulo 65536.
    Consequently 65536 consecutive calls return 65536 pairwise distinct
    values; each value is its predecessor plus one, except after 65535,
    which is followed by 0, and 65535 is returned at a single position
    of the cycle. *)
Theorem C6_next_messageID_cycle (e : t) (c : Z) :
  messageID_iter e = Some c ->
  let cursor := c mod 65536 in
  0 <= cursor <= 65535
  /\ next_messageID e = Ok (cursor, set_messageID_iter e (c + 1))
  /\ (c + 1) mod 65536 = (cursor + 1) mod 65536
  /\ exists vs e',
       next_messageIDs (Z.to_nat 65536) e = Ok (vs, e')
       /\ Z.of_nat (length vs) = 65536
       /\ NoDup vs
       /\ (forall i a b, vs !! i = Some a -> vs !! S i = Some b ->
             b = a + 1 \/ (a = 65535 /\ b = 0))
       /\ (forall i j, vs !! i = Some 65535 -> vs !! j = Some 65535 -> i = j).
Proof.
  intros Hc cursor. subst cursor.
  pose proof (Z.mod_pos_bound c 65536 ltac:(lia)) as Hb.
  split; [lia|]. split; [now apply next_messageID_value|].
  split; [rewrite (Z.add_mod c 1) by lia; reflexivity|].
  assert (HN : Z.of_nat (Z.to_nat 65536) = 65536) by (apply Z2Nat.id; lia).
  revert HN. generalize (Z.to_nat 65536) as n. intros n HN.
  destruct (messageID_values_cycle c n ltac:(lia)) as (Hlen & Hnd & Hstep & Hwrap).
  eexists _, _. split; [apply (next_messageIDs_values n e c Hc)|].
  split; [rewrite Hlen; exact HN|]. split; [exact Hnd|]. split; assumption.
Qed.

(** The endpoint named "node" has its counter at 7. *)
Lemma C6_witness :
  messageID_iter sample.node = Some 7
  /\ next_messageID sample.node = Ok (7 mod 65536, set_messageID_iter sample.node (7 + 1)).
Proof.
  split; [reflexivity|].
  exact (proj1 (proj2 (C6_next_messageID_cycle sample.node 7 eq_refl))).
Defined.

End MessageIDFacts.

(** ** The endpoint registry *)

Section RegistryFacts.
Import socket Endpoint.
Context (env : Env).

Lemma key_for_sockaddr_shape (sa : sockaddr_t) (f sm : option Z) (k : Key) :
  _key_for_sockaddr env sa f sm = Ok k ->
  exists addr, k = (f, addr, sa_port sa, sm).
Proof.
  unfold _key_for_sockaddr. py_bind.
  destruct f as [f|].
  - destruct (inet_pton env f (sa_host sa)); [|discriminate].
    intros [= <-]. eauto.
  - intros [= <-]. eauto.
Qed.

Lemma find_instance_found (st : State) (a : args) (o : objid) :
  find_instance env st a = Ok (inl o) ->
  exists k, registry st !! k = Some o.
Proof.
  unfold find_instance. py_bind. intros H.
  repeat case_match; simplify_eq; eauto.
Qed.

Lemma find_instance_fresh (st : State) (a : args) (k : Key) (f : option Z)
    (sa : sockaddr_t) :
  find_instance env st a = Ok (inr (k, f, sa)) ->
  registry st !! k = None
  /\ exists addr, k = (f, addr, sa_port sa, a_security_mode a).
Proof.
  unfold find_instance. py_bind. intros H.
  repeat case_match; simplify_eq.
  all: split; [assumption|].
  all: match goal with
       | Hk : _key_for_sockaddr _ _ _ _ = Ok _ |- _ =>
           apply key_for_sockaddr_shape in Hk; exact Hk
       end.
Qed.

Lemma extends_refl (st : State) : extends st st.
Proof. split; eauto. Qed.

Lemma extends_trans (st1 st2 st3 : State) :
  extends st1 st2 -> extends st2 st3 -> extends st1 st3.
Proof.
  intros [R12 H12] [R23 H23]. split; [eauto|].
  intros o e He. destruct (H12 o e He) as (e2 & He2 & K2).
  destruct (H23 o e2 He2) as (e3 & He3 & K3).
  exists e3. split; [assumption | congruence].
Qed.

(** Replacing an instance by one with the same key. *)
Lemma update_spec (st : State) (o : objid) (e e' : t) :
  registry_ok st -> heap st !! o = Some e -> key_of e' = key_of e ->
  let st' := {| registry := registry st; heap := <[o := e']> (heap st) |} in
  registry_ok st' /\ extends st st' /\ heap st' !! o = Some e'.
Proof.
  intros Hok He Hk st'. subst st'.
  assert (Hlt : (o < length (heap st))%nat) by (eapply lookup_lt_Some; eassumption).
  split; [|split].
  - intros k x Hx. simpl in *. destruct (Hok k x Hx) as (ex & Hex & Kx).
    destruct (decide (x = o)) as [->|Hne].
    + exists e'. rewrite list_lookup_insert_eq by assumption.
      split; [reflexivity | congruence].
    + exists ex. rewrite list_lookup_insert_ne by congruence. auto.
  - split; [auto|]. intros x ex Hex. simpl.
    destruct (decide (x = o)) as [->|Hne].
    + exists e'. rewrite list_lookup_insert_eq by assumption.
      split; [reflexivity | congruence].
    + exists ex. rewrite list_lookup_insert_ne by congruence. auto.
  - simpl. apply list_lookup_insert_eq. assumption.
Qed.

(** Registering a new instance under a free key. *)
Lemma alloc_spec (st : State) (key : Key) (inst : t) :
  registry_ok st -> registry st !! key = None -> key_of inst = key ->
  let st1 := {| registry := <[key := length (heap st)]> (registry st);
                heap := heap st ++ [inst] |} in
  registry_ok st1 /\ extends st st1
  /\ heap st1 !! length (heap st) = Some inst
  /\ registry st1 !! key = Some (length (heap st)).
Proof.
  intros Hok Hfree Hk st1. subst st1. simpl.
  assert (Hnew : (heap st ++ [inst]) !! length (heap st) = Some inst).
  { rewrite lookup_app_r by lia. rewrite Nat.sub_diag. reflexivity. }
  split; [|split; [|split]].
  - intros k x. simpl. rewrite lookup_insert.
    destruct (decide (key = k)) as [<-|Hne].
    + intros [= <-]. eauto.
    + intros Hx. destruct (Hok k x Hx) as (ex & Hex & Kx).
      exists ex. split; [|assumption]. apply lookup_app_l_Some. assumption.
  - split; simpl.
    + intros k x Hx. rewrite lookup_insert_ne; [assumption|]. congruence.
    + intros x ex Hex. exists ex. split; [|reflexivity].
      apply lookup_app_l_Some. assumption.
  - assumption.
  - simpl. apply lookup_insert_eq.
Qed.

(** What [__new__] guarantees: the invariant, the old entries, and that
    the instance returned is the one registered under its own key. *)
Lemma new_spec (st st' : State) (a : args) (r : result objid) :
  __new__ env st a = (r, st') -> registry_ok st ->
  registry_ok st' /\ extends st st'
  /\ (forall o, r = Ok o ->
        exists e, heap st' !! o = Some e /\ registry st' !! key_of e = Some o).
Proof.
  unfold __new__. intros H Hok.
  destruct (find_instance env st a) as [[o | [[key f] sa]] | x] eqn:Hfind.
  - injection H as <- <-. split; [assumption|]. split; [apply extends_refl|].
    intros o' [= <-]. apply find_instance_found in Hfind.
    destruct Hfind as [k Hk]. destruct (Hok k o Hk) as (e & He & Ke).
    exists e. split; [assumption | congruence].
  - apply find_instance_fresh in Hfind. destruct Hfind as (Hfree & addr & ->).
    set (inst := {| family := f; in_addr := addr; port := sa_port sa;
                    security_mode := a_security_mode a; sockaddr := sa;
                    uri_host := None; base_uri := None; messageID_iter := None |}) in *.
    destruct (alloc_spec st (f, addr, sa_port sa, a_security_mode a) inst Hok Hfree eq_refl)
      as (Hok1 & Hext1 & Hnew1 & Hreg1).
    set (st1 := {| registry := <[(f, addr, sa_port sa, a_security_mode a) := length (heap st)]>
                                 (registry st);
                   heap := heap st ++ [inst] |}) in *.
    simpl in H. fold inst in H. fold st1 in H.
    match type of H with
    | match ?text with _ => _ end = _ => destruct text as [s|x]
    end.
    + injection H as <- <-.
      destruct (update_spec st1 (length (heap st)) inst (set_uri_host inst s)
                  Hok1 Hnew1 eq_refl) as (Hok2 & Hext2 & Hnew2).
      split; [exact Hok2|]. split; [eapply extends_trans; eassumption|].
      intros o [= <-]. exists (set_uri_host inst s). split; [exact Hnew2|].
      simpl. exact Hreg1.
    + injection H as <- <-. split; [exact Hok1|]. split; [exact Hext1|].
      discriminate.
  - injection H as <- <-. split; [assumption|]. split; [apply extends_refl|].
    discriminate.
Qed.

Lemma init_spec (st st' : State) (self : objid) (rnd : Z) (r : result unit) :
  __init__ env st self rnd = (r, st') -> registry_ok st ->
  registry_ok st' /\ extends st st' /\ registry st' = registry st.
Proof.
  unfold __init__, deref. intros H Hok.
  destruct (heap st !! self) as [e|] eqn:He.
  2:{ injection H as <- <-. split; [assumption|]. split; [apply extends_refl | reflexivity]. }
  destruct (uri_from_options env e []) as [b|x].
  2:{ injection H as <- <-. split; [assumption|]. split; [apply extends_refl | reflexivity]. }
  injection H as <- <-.
  destruct (update_spec st self e (_reset_next_messageID (set_base_uri e b) rnd)
              Hok He eq_refl) as (Hok' & Hext' & _).
  split; [exact Hok'|]. split; [exact Hext' | reflexivity].
Qed.

Lemma create_spec (st st' : State) (a : args) (rnd : Z) (r : result objid) :
  create env st a rnd = (r, st') -> registry_ok st ->
  registry_ok st' /\ extends st st'
  /\ (forall o, r = Ok o ->
        exists e, heap st' !! o = Some e /\ registry st' !! key_of e = Some o).
Proof.
  unfold create. intros H Hok.
  destruct (__new__ env st a) as [[o|x] st1] eqn:Hnew.
  2:{ injection H as <- <-. eapply new_spec; eassumption. }
  destruct (new_spec st st1 a (Ok o) Hnew Hok) as (Hok1 & Hext1 & Hret1).
  destruct (__init__ env st1 o rnd) as [r2 st2] eqn:Hinit.
  destruct (init_spec st1 st2 o rnd r2 Hinit Hok1) as (Hok2 & Hext2 & Hreg2).
  assert (st' = st2) as -> by (destruct r2; injection H; congruence).
  split; [exact Hok2|]. split; [eapply extends_trans; eassumption|].
  intros o' Hr. destruct r2 as [u|x]; simplify_eq.
  destruct (Hret1 o' eq_refl) as (e & He & Hk).
  destruct Hext2 as [_ Hheap]. destruct (Hheap o' e He) as (e' & He' & Ke').
  exists e'. split; [exact He'|]. rewrite Hreg2, Ke'. exact Hk.
Qed.

Lemma next_messageID_at_spec (st st' : State) (self : objid) (r : result Z) :
  next_messageID_at st self = (r, st') -> registry_ok st ->
  registry_ok st' /\ extends st st'.
Proof.
  unfold next_messageID_at, deref, next_messageID, attr. py_bind. intros H Hok.
  destruct (heap st !! self) as [e|] eqn:He.
  2:{ injection H as <- <-. split; [assumption | apply extends_refl]. }
  destruct (messageID_iter e) as [c|].
  2:{ injection H as <- <-. split; [assumption | apply extends_refl]. }
  injection H as <- <-.
  destruct (update_spec st self e (set_messageID_iter e (c + 1)) Hok He eq_refl)
    as (Hok' & Hext' & _).
  split; assumption.
Qed.

Lemma step_spec (st st' : State) :
  step env st st' -> registry_ok st -> registry_ok st' /\ extends st st'.
Proof.
  intros [s a rnd r s' H | s self r s' H] Hok.
  - destruct (create_spec s s' a rnd r H Hok) as (? & ? & _). split; assumption.
  - eapply next_messageID_at_spec; eassumption.
Qed.

Lemma steps_spec (st st' : State) :
  rtc (step env) st st' -> registry_ok st -> registry_ok st' /\ extends st st'.
Proof.
  induction 1 as [st | st1 st2 st3 H12 _ IH]; intros Hok.
  - split; [assumption | apply extends_refl].
  - destruct (step_spec st1 st2 H12 Hok) as [Hok2 Hext2].
    destruct (IH Hok2) as [Hok3 Hext3].
    split; [assumption | eapply extends_trans; eassumption].
Qed.

Lemma registry_ok_initial : registry_ok initial_state.
Proof. intros k o H. simpl in H. rewrite lookup_empty in H. discriminate. Qed.

Lemma reachable_registry_ok (st : State) : reachable env st -> registry_ok st.
Proof.
  intros H. apply (steps_spec initial_state st H registry_ok_initial).
Qed.

End RegistryFacts.

Section RegistryClaims.
Import socket Endpoint.

(** C1.  Starting from any state the class can be in, let one
    constructor call return the instance [o1] and, after any further
    constructor calls and message-ID draws, another one return [o2].  If
    both instances carry the same key (family, in_addr, port,
    security_mode), they are the same object.  Moreover, in every state
    the class can be in, two registered instances with the same key are
    the same object. *)
Theorem C1_same_key_same_instance (env : Env) (st0 st1 st2 st3 st : State)
    (a1 a2 : args) (rnd1 rnd2 : Z) (o1 o2 : objid) (e1 e2 : t) :
  reachable env st0 ->
  create env st0 a1 rnd1 = (Ok o1, st1) ->
  rtc (step env) st1 st2 ->
  create env st2 a2 rnd2 = (Ok o2, st3) ->
  heap st1 !! o1 = Some e1 ->
  heap st3 !! o2 = Some e2 ->
  key_of e1 = key_of e2 ->
  reachable env st ->
  o1 = o2
  /\ (forall (k k' : Key) (o o' : objid) (e e' : t),
        registry st !! k = Some o -> registry st !! k' = Some o' ->
        heap st !! o = Some e -> heap st !! o' = Some e' ->
        key_of e = key_of e' -> o = o').
Proof.
  intros Hreach H1 Hsteps H2 He1 He2 Hkey Hst. split.
  - pose proof (reachable_registry_ok env st0 Hreach) as Hok0.
    destruct (create_spec env st0 st1 a1 rnd1 (Ok o1) H1 Hok0) as (Hok1 & _ & Hret1).
    destruct (Hret1 o1 eq_refl) as (x1 & Hx1 & Hreg1).
    assert (x1 = e1) as -> by congruence.
    destruct (steps_spec env st1 st2 Hsteps Hok1) as (Hok2 & Hext12 & _).
    destruct (create_spec env st2 st3 a2 rnd2 (Ok o2) H2 Hok2) as (_ & (Hext23 & _) & Hret2).
    destruct (Hret2 o2 eq_refl) as (x2 & Hx2 & Hreg2).
    assert (x2 = e2) as -> by congruence.
    apply Hext12, Hext23 in Hreg1. rewrite Hkey in Hreg1. congruence.
  - intros k k' o o' e e' Hk Hk' He He' Heq.
    pose proof (reachable_registry_ok env st Hst) as Hok.
    destruct (Hok k o Hk) as (x & Hx & Kx).
    destruct (Hok k' o' Hk') as (x' & Hx' & Kx').
    assert (k = k') as <- by congruence. congruence.
Qed.

(** Two resolutions of the name "node", the second after the first. *)
Lemma C1_witness :
  exists (st1 st3 : State) (o1 o2 : objid),
    create sample.env initial_state (sample.named "node" 5683) 7 = (Ok o1, st1)
    /\ create sample.env st1 (sample.named "node" 5683) 100 = (Ok o2, st3)
    /\ o1 = o2.
Proof.
  eexists _, _, _, _.
  split; [vm_compute; reflexivity|]. split; [vm_compute; reflexivity|].
  eapply (fun st1 st3 e1 e2 H0 H1 H2 H3 H4 H5 H6 H7 =>
            proj1 (C1_same_key_same_instance sample.env initial_state st1 st1 st3
                     initial_state (sample.named "node" 5683) (sample.named "node" 5683)
                     7 100 0%nat 0%nat e1 e2 H0 H1 H2 H3 H4 H5 H6 H7)).
  - apply rtc_refl.
  - vm_compute. reflexivity.
  - apply rtc_refl.
  - vm_compute. reflexivity.
  - vm_compute. reflexivity.
  - vm_compute. reflexivity.
  - vm_compute. reflexivity.
  - apply rtc_refl.
Defined.

(** A constructor call whose key is registered already returns the
    registered instance and leaves the registry as it is; the base URI
    is computed again from the unchanged attributes, and the message-ID
    iterator is replaced by one that starts at the newly drawn value. *)
Lemma create_registered (env : Env) (st : State) (a : args) (sa : sockaddr_t)
    (key : Key) (o : objid) (e : t) (b : string) (rnd : Z) :
  a_sockaddr a = Some sa ->
  _key_for_sockaddr env sa (a_family a) (a_security_mode a) = Ok key ->
  registry st !! key = Some o ->
  heap st !! o = Some e ->
  uri_from_options env e [] = Ok b ->
  create env st a rnd =
  (Ok o, {| registry := registry st;
            heap := <[o := set_messageID_iter (set_base_uri e b) rnd]> (heap st) |}).
Proof.
  intros Hsa Hkey Hreg He Hb.
  unfold create, __new__, find_instance. rewrite Hsa. py_bind.
  rewrite Hkey, Hreg. unfold __init__, deref. rewrite He, Hb. reflexivity.
Qed.

(** C2 (the code departs from it).  The endpoint named "node" is
    created with the random start value 7.  Resolving the same key once
    more, when the random draw is 100, returns the same instance and
    leaves the registry and the other attributes alone, but the
    message-ID cursor of the instance is now 100: [Endpoint(...)] runs
    [__init__] on the instance that [__new__] found, and [__init__]
    installs a fresh iterator. *)
Theorem C2_repeated_resolution_reseeds_cursor :
  exists (st1 st2 : State) (e1 : t),
    create sample.env initial_state (sample.named "node" 5683) 7 = (Ok 0%nat, st1)
    /\ create sample.env st1 (sample.named "node" 5683) 100 = (Ok 0%nat, st2)
    /\ registry st2 = registry st1
    /\ heap st1 !! 0%nat = Some e1
    /\ messageID_iter e1 = Some 7
    /\ heap st2 !! 0%nat = Some (set_messageID_iter e1 100)
    /\ set_messageID_iter e1 100 <> e1.
Proof.
  eexists _, _, _.
  split; [vm_compute; reflexivity|]. split; [vm_compute; reflexivity|].
  split; [reflexivity|]. split; [reflexivity|]. split; [reflexivity|].
  split; [reflexivity|]. discriminate.
Qed.

End RegistryClaims.

(** ** Host comparison *)

Section HostClaims.
Import socket Endpoint.

(** The resolution made by [is_same_host]: no socket address is given,
    so the registry is not consulted; under the family [None] the host
    stands for itself, otherwise [getaddrinfo] is asked with the
    numeric-host flags and its first answer is taken. *)
Lemma is_same_host_resolution (env : Env) (st : State) (self : t) (host : string) :
  _canonical_sockinfo env st None (family self) None (Some host) coapy.COAP_PORT =
  match family self with
  | None => Ok (None, {| sa_host := host; sa_port := coapy.COAP_PORT; sa_rest := [] |})
  | Some f =>
      match getaddrinfo env host coapy.COAP_PORT f SOCK_DGRAM 0 1068 with
      | inl code => Raise (gaierror code)
      | inr [] => Raise IndexError
      | inr (gai :: _) => Ok (ai_family gai, ai_sockaddr gai)
      end
  end.
Proof.
  unfold _canonical_sockinfo. py_bind.
  destruct (family self) as [f|]; [|reflexivity].
  change (Z.lor (Z.lor (Z.lor AI_ADDRCONFIG AI_V4MAPPED) AI_NUMERICHOST) AI_NUMERICSERV)
    with 1068.
  destruct (getaddrinfo env host coapy.COAP_PORT f SOCK_DGRAM 0 1068) as [code|[|gai gais]];
    reflexivity.
Qed.

(** C7.  Let [resolution] be the outcome of resolving [host] under the
    endpoint's family.  If it fails with the name-not-found condition,
    [is_same_host] returns [False]; if it fails in any other way, that
    error is raised to the caller; so, among the failures, [False] is
    returned exactly for name-not-found.  If it succeeds with a family
    and a socket address whose binary address is [addr], the result is
    whether that family and [addr] equal the endpoint's own; if the
    address text of the answer cannot be converted to binary form, that
    error is raised to the caller as well. *)
Theorem C7_is_same_host (env : Env) (st : State) (self : t) (host : string) :
  let resolution :=
    _canonical_sockinfo env st None (family self) None (Some host) coapy.COAP_PORT in
  (resolution = Raise (gaierror EAI_NONAME) ->
   is_same_host env st self host = Ok false)
  /\ (forall e, resolution = Raise e -> e <> gaierror EAI_NONAME ->
        is_same_host env st self host = Raise e)
  /\ (forall e, resolution = Raise e ->
        (is_same_host env st self host = Ok false <-> e = gaierror EAI_NONAME))
  /\ (forall f sa addr,
        resolution = Ok (f, sa) ->
        _key_for_sockaddr env sa f None = Ok (f, addr, sa_port sa, None) ->
        is_same_host env st self host =
        Ok (option_Z_eqb (family self) f && String.eqb (in_addr self) addr))
  /\ (forall f sa e,
        resolution = Ok (f, sa) ->
        _key_for_sockaddr env sa f None = Raise e ->
        is_same_host env st self host = Raise e).
Proof.
  intros resolution. subst resolution. unfold is_same_host.
  destruct (_canonical_sockinfo env st None (family self) None (Some host) coapy.COAP_PORT)
    as [[f sa] | e] eqn:Hres.
  - split; [discriminate|]. split; [discriminate|]. split; [discriminate|].
    split.
    + intros f' sa' addr [= <- <-] Hkey. py_bind. rewrite Hkey. reflexivity.
    + intros f' sa' e [= <- <-] Hkey. py_bind. rewrite Hkey. reflexivity.
  - destruct e as [m u|code| | | | | | |];
      try (split; [discriminate|]; split; [intros x [= <-] _; reflexivity|];
           split; [intros x [= <-]; split; discriminate | split; discriminate]).
    destruct (Z.eqb_spec EAI_NONAME code) as [<-|Hne]; simpl.
    + split; [reflexivity|]. split; [intros x [= <-] Hx; congruence|].
      split; [intros x [= <-]; split; reflexivity | split; discriminate].
    + split; [intros [= E]; congruence|]. split; [intros x [= <-] _; reflexivity|].
      split; [intros x [= <-]; split; [discriminate | intros [= E]; congruence]
             | split; discriminate].
Qed.

(** On the endpoint for 127.0.0.1: a name is not found, the literal
    of another family fails otherwise, the literal itself matches. *)
Lemma C7_witness :
  is_same_host sample.env initial_state sample.loopback "example.org" = Ok false
  /\ is_same_host sample.env initial_state sample.loopback "::1" = Raise (gaierror (-9))
  /\ is_same_host sample.env initial_state sample.loopback "127.0.0.1" = Ok true.
Proof.
  split; [|split].
  - apply (proj1 (C7_is_same_host sample.env initial_state sample.loopback "example.org")).
    vm_compute. reflexivity.
  - apply (proj1 (proj2 (C7_is_same_host sample.env initial_state sample.loopback "::1"))).
    + vm_compute. reflexivity.
    + discriminate.
  - rewrite (proj1 (proj2 (proj2 (proj2
               (C7_is_same_host sample.env initial_state sample.loopback "127.0.0.1"))))
               (Some AF_INET) {| sa_host := "127.0.0.1"; sa_port := 5683; sa_rest := [] |}
               (in_addr sample.loopback)).
    + reflexivity.
    + vm_compute. reflexivity.
    + vm_compute. reflexivity.
Defined.

End HostClaims.

(** ** Strings and percent-encoding *)

Section StringFacts.

Lemma split_not_nil (sep : ascii) (s : string) : pystr.split sep s <> [].
Proof.
  destruct s as [|c s]; simpl; [discriminate|].
  destruct (Ascii.eqb c sep); [discriminate|].
  destruct (pystr.split sep s); discriminate.
Qed.

(** Joining what was split gives the text back. *)
Lemma join_split (sep : ascii) (s : string) :
  pystr.join (String sep EmptyString) (pystr.split sep s) = s.
Proof.
  unfold pystr.join. induction s as [|c s IH]; simpl; [reflexivity|].
  pose proof (split_not_nil sep s) as Hne.
  destruct (Ascii.eqb_spec c sep) as [->|Hc].
  - destruct (pystr.split sep s) as [|w ws]; [contradiction|].
    simpl in *. rewrite IH. reflexivity.
  - destruct (pystr.split sep s) as [|w ws]; [contradiction|].
    simpl in *. destruct ws as [|w' ws]; simpl in *; rewrite <- IH; reflexivity.
Qed.

(** The characters of [always_safe] and "?" are ASCII and none of them
    is the percent sign. *)
Lemma safe_char_ascii (c : ascii) :
  pystr.contains c urllib.always_safe || pystr.contains c "?" = true ->
  N.ltb (pystr.byte c) 128 = true /\ Ascii.eqb c "%" = false.
Proof.
  destruct c as [[] [] [] [] [] [] [] []]; vm_compute; intros H;
    first [discriminate H | split; reflexivity].
Qed.

Lemma unreserved_char (safe : string) (c : ascii) :
  safe = "" \/ safe = "?" ->
  pystr.contains c urllib.always_safe || pystr.contains c safe = true ->
  pystr.contains c urllib.always_safe || pystr.contains c "?" = true.
Proof.
  intros [-> | ->] H; [|exact H].
  change (pystr.contains c "") with false in H.
  rewrite orb_false_r in H. rewrite H. reflexivity.
Qed.

(** Percent-encoding leaves unreserved text as it is. *)
Lemma quote_unreserved (safe s : string) :
  safe = "" \/ safe = "?" ->
  Endpoint.unreserved safe s = true -> urllib.quote s safe = s.
Proof.
  intros Hsafe. unfold Endpoint.unreserved.
  induction s as [|c s IH]; [reflexivity|].
  cbn [pystr.all_chars urllib.quote].
  intros H. apply andb_true_iff in H. destruct H as [Hc Hs].
  rewrite (IH Hs). unfold urllib.quoter.
  destruct (safe_char_ascii c (unreserved_char safe c Hsafe Hc)) as [Hlt _].
  rewrite Hlt. cbn [andb]. rewrite Hc. reflexivity.
Qed.

Lemma unreserved_is_ascii (safe s : string) :
  safe = "" \/ safe = "?" ->
  Endpoint.unreserved safe s = true -> pystr.is_ascii s = true.
Proof.
  intros Hsafe. unfold Endpoint.unreserved, pystr.is_ascii.
  induction s as [|c s IH]; [reflexivity|].
  cbn [pystr.all_chars].
  intros H. apply andb_true_iff in H. destruct H as [Hc Hs].
  rewrite (IH Hs), andb_true_r.
  apply safe_char_ascii, (unreserved_char safe c Hsafe Hc).
Qed.

Lemma unquote_unreserved (safe s : string) :
  safe = "" \/ safe = "?" ->
  Endpoint.unreserved safe s = true -> urllib.unquote s = s.
Proof.
  intros Hsafe. unfold Endpoint.unreserved.
  induction s as [|c s IH]; [reflexivity|].
  cbn [pystr.all_chars]. intros H. apply andb_true_iff in H. destruct H as [Hc Hs].
  destruct (safe_char_ascii c (unreserved_char safe c Hsafe Hc)) as [_ Hp].
  cbn [urllib.unquote]. rewrite Hp, (IH Hs). reflexivity.
Qed.

Lemma utf8_valid_ascii (s : string) :
  pystr.is_ascii s = true -> codecs.utf8_valid s = true.
Proof.
  unfold pystr.is_ascii. induction s as [|c s IH]; [reflexivity|].
  cbn [pystr.all_chars codecs.utf8_valid]. intros H.
  apply andb_true_iff in H. destruct H as [Hc Hs].
  rewrite Hc. apply IH. exact Hs.
Qed.

End StringFacts.

(** ** URI to options *)

Section UriToOptionsFacts.
Import Endpoint.

Lemma append_segments_eq (mk : string -> CoapOption) (pieces : list string) :
  forall opts,
    append_segments mk pieces opts =
    (segments ← decode_all pieces; Ok (opts ++ map mk segments)).
Proof.
  induction pieces as [|piece rest IH]; intros opts; cbn [append_segments decode_all].
  - py_bind. rewrite app_nil_r. reflexivity.
  - py_bind. destruct (decode_segment piece) as [seg|e]; [|reflexivity].
    rewrite IH. py_bind. destruct (decode_all rest) as [segs|e]; [|reflexivity].
    rewrite <- app_assoc. reflexivity.
Qed.

(** [uri_to_options] as the sequence of its steps: resolution, the two
    checks, the host option, the port option, the path segments and the
    query clauses. *)
Lemma uri_to_options_steps (env : Env) (st : State) (self : t) (uri : string)
    (base_uri : option string) :
  uri_to_options env st self uri base_uri =
  (r ← resolved self uri base_uri;
   if not_absolute r.2 then Raise (URIError "not absolute" r.1)
   else if invalid_scheme r.2
   then Raise (URIError "invalid scheme" (urlparse.scheme r.2))
   else
     hp ← host_options env st self r.2;
     pp ← port_options self r.2;
     segs ← decode_all (path_pieces (urlparse.path r.2));
     clauses ← decode_all (query_pieces (urlparse.query r.2));
     Ok (hp ++ pp ++ map UriPath segs ++ map UriQuery clauses)).
Proof.
  unfold uri_to_options, resolved. py_bind.
  destruct (match base_uri with
            | Some b => Ok b
            | None => attr (Endpoint.base_uri self)
            end) as [b|e]; [|reflexivity].
  destruct (urlparse.urljoin b uri) as [u|e]; [|reflexivity].
  destruct (urlparse.urlsplit u) as [res|e]; [|reflexivity].
  cbn [fst snd]. unfold is_None, not_absolute, invalid_scheme.
  cbn [andb]. rewrite orb_false_r.
  destruct (negb (pystr.nonempty (urlparse.scheme res))
            || pystr.nonempty (urlparse.fragment res)); [reflexivity|].
  destruct (negb (String.eqb (pystr.lower (urlparse.scheme res)) "coap"
                  || String.eqb (pystr.lower (urlparse.scheme res)) "coaps"));
    [reflexivity|].
  unfold host_options, port_options, effective_port. py_bind.
  assert (Hhost :
    match urlparse.hostname res with
    | Some hostname =>
        if pystr.nonempty hostname
        then match is_same_host env st self (urllib.unquote_text hostname) with
             | Ok v => if negb v
                       then Ok ([] ++ [UriHost (Some (urllib.unquote_text hostname))])
                       else Ok []
             | Raise e => Raise e
             end
        else Ok []
    | None => Ok []
    end =
    match urlparse.hostname res with
    | Some hostname =>
        if pystr.nonempty hostname
        then match is_same_host env st self (urllib.unquote_text hostname) with
             | Ok v => Ok (if v then []
                           else [UriHost (Some (urllib.unquote_text hostname))])
             | Raise e => Raise e
             end
        else Ok []
    | None => Ok []
    end).
  { destruct (urlparse.hostname res) as [h|]; [|reflexivity].
    destruct (pystr.nonempty h); [|reflexivity].
    destruct (is_same_host env st self (urllib.unquote_text h)) as [[]|]; reflexivity. }
  rewrite Hhost. clear Hhost.
  destruct (match urlparse.hostname res with
            | Some hostname =>
                if pystr.nonempty hostname
                then match is_same_host env st self (urllib.unquote_text hostname) with
                     | Ok v => Ok (if v then []
                                   else [UriHost (Some (urllib.unquote_text hostname))])
                     | Raise e => Raise e
                     end
                else Ok []
            | None => Ok []
            end) as [hp|e]; [|reflexivity].
  destruct (urlparse.port res) as [p|e]; [|reflexivity].
  destruct (match p with
            | Some p0 => Ok p0
            | None => _port_for_scheme (pystr.lower (urlparse.scheme res))
            end) as [n|e]; [|reflexivity].
  unfold path_pieces, query_pieces.
  set (pp := if Z.eqb n (port self) then [] else [UriPort (Some n)]).
  replace (if negb (Z.eqb n (port self)) then hp ++ [UriPort (Some n)] else hp)
    with (hp ++ pp)
    by (subst pp; destruct (Z.eqb n (port self)); simpl; [apply app_nil_r | reflexivity]).
  destruct (pystr.nonempty (urlparse.path res) && negb (String.eqb "/" (urlparse.path res))).
  - rewrite append_segments_eq. py_bind.
    destruct (decode_all _) as [segs|e]; [|reflexivity].
    destruct (pystr.nonempty (urlparse.query res)).
    + rewrite append_segments_eq. py_bind.
      destruct (decode_all _) as [clauses|e]; [|reflexivity].
      rewrite <- !app_assoc. reflexivity.
    + cbn [decode_all map]. rewrite app_nil_r, <- !app_assoc. reflexivity.
  - cbn [decode_all map].
    destruct (pystr.nonempty (urlparse.query res)).
    + rewrite append_segments_eq. py_bind.
      destruct (decode_all _) as [clauses|e]; [|reflexivity].
      rewrite <- !app_assoc. reflexivity.
    + cbn [decode_all map]. rewrite !app_nil_r. reflexivity.
Qed.

End UriToOptionsFacts.

Section AbsoluteUriFacts.
Import Endpoint.

Lemma append_String (x : ascii) (a b : string) :
  String.append (String x a) b = String x (String.append a b).
Proof. reflexivity. Qed.

Lemma append_Empty (b : string) : String.append EmptyString b = b.
Proof. reflexivity. Qed.

Lemma append_assoc (a b c : string) :
  String.append (String.append a b) c = String.append a (String.append b c).
Proof.
  induction a as [|x a IH]; [reflexivity|].
  rewrite !append_String, IH. reflexivity.
Qed.

(** Unfold [append] on the literal prefix of a text. *)
Ltac str_prefix :=
  repeat first [rewrite append_String | rewrite append_Empty | rewrite append_assoc].

Lemma splitnetloc_authority (host rest : string) :
  pystr.all_chars
    (fun c => negb (Ascii.eqb c "/" || Ascii.eqb c "?" || Ascii.eqb c "#")) host = true ->
  urlparse._splitnetloc (String.append host (String "/" rest)) = (host, String "/" rest).
Proof.
  induction host as [|c host IH]; intros H.
  - reflexivity.
  - cbn [pystr.all_chars] in H. apply andb_true_iff in H. destruct H as [Hc Hs].
    rewrite append_String. cbn [urlparse._splitnetloc].
    apply negb_true_iff in Hc. rewrite Hc, (IH Hs). reflexivity.
Qed.

(** The text coap://host/a/b?x=1 splits into its components. *)
Lemma urlsplit_with_example (host dflt : string) :
  authority_text host = true ->
  urlparse.urlsplit_with (String.append "coap://" (String.append host "/a/b?x=1")) dflt =
  Ok {| urlparse.scheme := "coap"; urlparse.netloc := host; urlparse.path := "/a/b";
        urlparse.query := "x=1"; urlparse.fragment := "" |}.
Proof.
  unfold authority_text. intros H.
  apply andb_true_iff in H. destruct H as [H Hbr].
  apply andb_true_iff in H. destruct H as [Hne Hchars].
  unfold urlparse.urlsplit_with. str_prefix.
  cbn [pystr.split1 Ascii.eqb Bool.eqb].
  cbv beta iota.
  change (String.eqb "coap" "http") with false. cbv iota.
  change (pystr.all_chars urlparse.scheme_char "coap") with true. cbv iota.
  cbn [pystr.nonempty negb orb pystr.all_chars].
  change (pystr.is_digit "/") with false. cbn [andb negb orb].
  change (pystr.lower "coap") with "coap".
  unfold urlparse.split_rest. py_bind.
  rewrite (splitnetloc_authority host "a/b?x=1" Hchars).
  apply Bool.eqb_prop in Hbr. rewrite Hbr.
  destruct (pystr.contains "]" host); reflexivity.
Qed.

(** Resolving the absolute text coap://host/a/b?x=1 against a base
    that parses gives the text back. *)
Lemma urljoin_example (base host : string) (b : urlparse.ParseResult) :
  urlparse.urlparse_with base "" = Ok b ->
  authority_text host = true ->
  urlparse.urljoin base (String.append "coap://" (String.append host "/a/b?x=1")) =
  Ok (String.append "coap://" (String.append host "/a/b?x=1")).
Proof.
  intros Hb Hhost. unfold urlparse.urljoin.
  destruct (pystr.nonempty base); [|reflexivity].
  cbn [negb]. change (pystr.nonempty (String.append "coap://" (String.append host "/a/b?x=1")))
    with true. cbn [negb].
  rewrite Hb. py_bind. unfold urlparse.urlparse_with. py_bind.
  rewrite (urlsplit_with_example host (urlparse.p_scheme b) Hhost).
  cbn [urlparse.scheme urlparse.netloc urlparse.path urlparse.query urlparse.fragment].
  change (urlparse.str_in "coap" urlparse.uses_params) with false. cbn [andb].
  cbn [urlparse.p_scheme urlparse.p_netloc urlparse.p_path urlparse.p_params
       urlparse.p_query urlparse.p_fragment].
  destruct (negb (String.eqb "coap" (urlparse.p_scheme b))
            || negb (urlparse.str_in "coap" urlparse.uses_relative)); [reflexivity|].
  change (urlparse.str_in "coap" urlparse.uses_netloc) with true.
  unfold authority_text in Hhost.
  apply andb_true_iff in Hhost. destruct Hhost as [Hhost _].
  apply andb_true_iff in Hhost. destruct Hhost as [Hne _].
  rewrite Hne. cbn [andb]. f_equal.
  unfold urlparse.urlunparse, urlparse.urlunsplit.
  rewrite Hne. cbn [pystr.nonempty orb andb negb pystr.startswith Ascii.eqb Bool.eqb].
  str_prefix. reflexivity.
Qed.

End AbsoluteUriFacts.

Section UriToOptionsClaims.
Import Endpoint.

Lemma decode_all_Forall2 (pieces segs : list string) :
  decode_all pieces = Ok segs <->
  Forall2 (fun piece seg => decode_segment piece = Ok seg) pieces segs.
Proof.
  revert segs. induction pieces as [|p rest IH]; intros segs; cbn [decode_all]; py_bind.
  - split.
    + intros [= <-]. constructor.
    + intros H. inversion H. reflexivity.
  - destruct (decode_segment p) as [s|e] eqn:Hp.
    + destruct (decode_all rest) as [ss|e] eqn:Hrest.
      * split.
        -- intros [= <-]. constructor; [assumption|]. apply IH. reflexivity.
        -- intros H. inversion H as [|? s' ? ss' Hs Hss]; subst.
           apply IH in Hss. congruence.
      * split; [discriminate|].
        intros H. inversion H as [|? s' ? ss' Hs Hss]; subst.
        apply IH in Hss. discriminate.
    + split; [discriminate|].
      intros H. inversion H as [|? s' ? ss' Hs Hss]; subst. congruence.
Qed.

Lemma host_options_shape (env : Env) (st : State) (self : t)
    (res : urlparse.SplitResult) (hp : list CoapOption) :
  host_options env st self res = Ok hp ->
  hp = [] \/ exists h, hp = [UriHost (Some h)].
Proof.
  unfold host_options. py_bind.
  destruct (urlparse.hostname res) as [h|]; [|intros [= <-]; now left].
  destruct (pystr.nonempty h); [|intros [= <-]; now left].
  destruct (is_same_host env st self (urllib.unquote_text h)) as [[]|]; intros [= <-];
    [now left | right; eauto].
Qed.

Lemma port_options_shape (self : t) (res : urlparse.SplitResult) (pp : list CoapOption) :
  port_options self res = Ok pp ->
  pp = [] \/ exists n, pp = [UriPort (Some n)].
Proof.
  unfold port_options. py_bind.
  destruct (urlparse.port res) as [p|]; [|discriminate].
  destruct (effective_port _ p) as [n|]; [|discriminate].
  destruct (Z.eqb n (port self)); intros [= <-]; [now left | right; eauto].
Qed.

(** The shape of every list returned by [uri_to_options]. *)
Lemma uri_to_options_order (env : Env) (st : State) (self : t) (uri : string)
    (base_uri : option string) (opts : list CoapOption) :
  uri_to_options env st self uri base_uri = Ok opts ->
  exists u res hp pp segs clauses,
    resolved self uri base_uri = Ok (u, res)
    /\ opts = hp ++ pp ++ map UriPath segs ++ map UriQuery clauses
    /\ (hp = [] \/ exists h, hp = [UriHost (Some h)])
    /\ (pp = [] \/ exists n, pp = [UriPort (Some n)])
    /\ Forall2 (fun piece seg => decode_segment piece = Ok seg)
         (path_pieces (urlparse.path res)) segs
    /\ Forall2 (fun piece clause => decode_segment piece = Ok clause)
         (query_pieces (urlparse.query res)) clauses.
Proof.
  intros H. rewrite uri_to_options_steps in H. py_bind.
  destruct (resolved self uri base_uri) as [[u res]|e] eqn:Hres; [|discriminate].
  cbn [fst snd] in H.
  destruct (not_absolute res); [discriminate|].
  destruct (invalid_scheme res); [discriminate|].
  destruct (host_options env st self res) as [hp|e] eqn:Hhp; [|discriminate].
  destruct (port_options self res) as [pp|e] eqn:Hpp; [|discriminate].
  destruct (decode_all (path_pieces (urlparse.path res))) as [segs|e] eqn:Hs;
    [|discriminate].
  destruct (decode_all (query_pieces (urlparse.query res))) as [clauses|e] eqn:Hc;
    [|discriminate].
  injection H as <-.
  exists u, res, hp, pp, segs, clauses.
  split; [reflexivity|]. split; [reflexivity|].
  split; [eapply host_options_shape; eassumption|].
  split; [eapply port_options_shape; eassumption|].
  split; apply decode_all_Forall2; assumption.
Qed.

(** C4.  First part: let the endpoint have a base URI that parses, let
    [host] be an authority text whose host name is the endpoint's own
    according to [is_same_host] and whose port (given or default) is the
    endpoint's.  Then the options of coap://host/a/b?x=1 are exactly
    UriPath "a", UriPath "b", UriQuery "x=1".  Second part: every list
    returned is an optional UriHost, an optional UriPort, the UriPath
    options and then the UriQuery options, whose values are the decoded
    segments of the path and clauses of the query of the resolved URI,
    in the order of the text. *)
Theorem C4_uri_to_options_example_and_order (env : Env) (st : State) (self : t) :
  (forall (host base : string) (b : urlparse.ParseResult) (hn : string) (p : option Z),
      base_uri self = Some base ->
      urlparse.urlparse_with base "" = Ok b ->
      authority_text host = true ->
      let res := {| urlparse.scheme := "coap"; urlparse.netloc := host;
                    urlparse.path := "/a/b"; urlparse.query := "x=1";
                    urlparse.fragment := "" |} in
      urlparse.hostname res = Some hn ->
      pystr.nonempty hn = true ->
      is_same_host env st self (urllib.unquote_text hn) = Ok true ->
      urlparse.port res = Ok p ->
      effective_port "coap" p = Ok (port self) ->
      uri_to_options env st self
        (String.append "coap://" (String.append host "/a/b?x=1")) None =
      Ok [UriPath "a"; UriPath "b"; UriQuery "x=1"])
  /\ (forall (uri : string) (base_uri : option string) (opts : list CoapOption),
        uri_to_options env st self uri base_uri = Ok opts ->
        exists u res hp pp segs clauses,
          resolved self uri base_uri = Ok (u, res)
          /\ opts = hp ++ pp ++ map UriPath segs ++ map UriQuery clauses
          /\ (hp = [] \/ exists h, hp = [UriHost (Some h)])
          /\ (pp = [] \/ exists n, pp = [UriPort (Some n)])
          /\ Forall2 (fun piece seg => decode_segment piece = Ok seg)
               (path_pieces (urlparse.path res)) segs
          /\ Forall2 (fun piece clause => decode_segment piece = Ok clause)
               (query_pieces (urlparse.query res)) clauses).
Proof.
  split.
  - intros host base b hn p Hbase Hb Hhost res Hhn Hne Hsame Hp Hport.
    rewrite uri_to_options_steps. unfold resolved, attr. rewrite Hbase. py_bind.
    rewrite (urljoin_example base host b Hb Hhost).
    unfold urlparse.urlsplit. rewrite (urlsplit_with_example host "" Hhost).
    fold res. cbn [fst snd].
    change (not_absolute res) with false. change (invalid_scheme res) with false.
    cbv iota.
    unfold host_options. rewrite Hhn, Hne. py_bind. rewrite Hsame.
    unfold port_options. py_bind. rewrite Hp.
    change (pystr.lower (urlparse.scheme res)) with "coap". rewrite Hport.
    rewrite Z.eqb_refl. reflexivity.
  - intros uri base_uri opts H. apply (uri_to_options_order env st self uri base_uri opts H).
Qed.

(** The endpoint named "node" and the URI coap://node/a/b?x=1. *)
Lemma C4_witness :
  uri_to_options sample.env initial_state sample.node "coap://node/a/b?x=1" None =
  Ok [UriPath "a"; UriPath "b"; UriQuery "x=1"].
Proof.
  refine (proj1 (C4_uri_to_options_example_and_order sample.env initial_state sample.node)
            "node" "coap://node/" _ "node" None _ _ _ _ _ _ _ _).
  - reflexivity.
  - vm_compute. reflexivity.
  - reflexivity.
  - reflexivity.
  - reflexivity.
  - vm_compute. reflexivity.
  - reflexivity.
  - reflexivity.
Defined.

End UriToOptionsClaims.

Section UriErrorClaims.
Import Endpoint.

Lemma is_same_host_not_URIError (env : Env) (st : State) (self : t) (host : string)
    (e : exn) :
  is_same_host env st self host = Raise e -> is_URIError e = false.
Proof.
  unfold is_same_host. rewrite is_same_host_resolution.
  unfold _key_for_sockaddr. py_bind.
  destruct (family self) as [f|].
  - destruct (getaddrinfo env host coapy.COAP_PORT f socket.SOCK_DGRAM 0 1068)
      as [code|[|gai gais]].
    + destruct (negb (Z.eqb socket.EAI_NONAME code)); [|discriminate].
      intros [= <-]. reflexivity.
    + intros [= <-]. reflexivity.
    + destruct (socket.ai_family gai) as [g|]; [|discriminate].
      destruct (inet_pton env g _); [discriminate|].
      intros [= <-]. reflexivity.
  - discriminate.
Qed.

Lemma host_options_not_URIError (env : Env) (st : State) (self : t)
    (res : urlparse.SplitResult) (e : exn) :
  host_options env st self res = Raise e -> is_URIError e = false.
Proof.
  unfold host_options. py_bind.
  destruct (urlparse.hostname res) as [h|]; [|discriminate].
  destruct (pystr.nonempty h); [|discriminate].
  destruct (is_same_host env st self (urllib.unquote_text h)) as [v|x] eqn:Hs;
    [discriminate|].
  intros [= <-]. eapply is_same_host_not_URIError. eassumption.
Qed.

Lemma port_options_not_URIError (self : t) (res : urlparse.SplitResult) (e : exn) :
  port_options self res = Raise e -> is_URIError e = false.
Proof.
  unfold port_options, urlparse.port, effective_port, _port_for_scheme. py_bind.
  intros H. repeat case_match; simplify_eq; reflexivity.
Qed.

Lemma decode_all_not_URIError (pieces : list string) (e : exn) :
  decode_all pieces = Raise e -> is_URIError e = false.
Proof.
  induction pieces as [|p rest IH]; cbn [decode_all]; py_bind; [discriminate|].
  unfold decode_segment, codecs.bytes, codecs.decode_utf8. py_bind.
  destruct (pystr.is_ascii p); [|intros [= <-]; reflexivity].
  destruct (codecs.utf8_valid (urllib.unquote p)); [|intros [= <-]; reflexivity].
  destruct (decode_all rest); [discriminate|].
  intros [= <-]. apply IH. reflexivity.
Qed.

(** C5, the claim as stated is refuted: the relative URI /%FF resolves
    against the base URI of the endpoint "node" to coap://node/%FF,
    which has the scheme "coap", an authority, a path and no fragment,
    so none of the listed conditions holds; yet no option list is
    returned: decoding the segment as UTF-8 raises
    [UnicodeDecodeError]. *)
Lemma C5_counterexample :
  resolved sample.node "/%FF" None =
  Ok ("coap://node/%FF",
      {| urlparse.scheme := "coap"; urlparse.netloc := "node"; urlparse.path := "/%FF";
         urlparse.query := ""; urlparse.fragment := "" |})
  /\ uri_to_options sample.env initial_state sample.node "/%FF" None =
     Raise UnicodeDecodeError.
Proof. split; vm_compute; reflexivity. Qed.

(** The test on the authority and the path in [uri_to_options] compares
    them with [None], which [urlsplit] never returns: the text "coaps:"
    has a scheme but neither authority nor path, and is translated all
    the same. *)
Lemma uri_to_options_scheme_only :
  resolved sample.node "coaps:" None =
  Ok ("coaps:",
      {| urlparse.scheme := "coaps"; urlparse.netloc := ""; urlparse.path := "";
         urlparse.query := ""; urlparse.fragment := "" |})
  /\ uri_to_options sample.env initial_state sample.node "coaps:" None =
     Ok [UriPort (Some 5684)].
Proof. split; vm_compute; reflexivity. Qed.

(** C5 (amended).  Let the URI resolve to a text [u] that splits into
    [res], with an authority or a path.  If [res] has no scheme or has a
    fragment, [URIError('not absolute', u)] is raised; otherwise, if the
    scheme is not "coap" or "coaps" up to the case of letters,
    [URIError('invalid scheme', scheme)] is raised; a [URIError] is
    raised in these cases only.  In every other case an option list is
    returned, unless the comparison of the host, the reading of the port
    or the decoding of a path segment or query clause raises an error,
    which is then not a [URIError]. *)
Theorem C5_uri_errors (env : Env) (st : State) (self : t) (uri : string)
    (base_uri : option string) (u : string) (res : urlparse.SplitResult) :
  resolved self uri base_uri = Ok (u, res) ->
  pystr.nonempty (urlparse.netloc res) || pystr.nonempty (urlparse.path res) = true ->
  let r := uri_to_options env st self uri base_uri in
  (not_absolute res = true -> r = Raise (URIError "not absolute" u))
  /\ (not_absolute res = false -> invalid_scheme res = true ->
      r = Raise (URIError "invalid scheme" (urlparse.scheme res)))
  /\ (forall e, r = Raise e -> is_URIError e = true ->
        not_absolute res = true \/ invalid_scheme res = true)
  /\ (not_absolute res = false -> invalid_scheme res = false ->
      (exists opts, r = Ok opts)
      \/ (exists e, r = Raise e /\ is_URIError e = false
                    /\ (host_options env st self res = Raise e
                        \/ port_options self res = Raise e
                        \/ decode_all (path_pieces (urlparse.path res)) = Raise e
                        \/ decode_all (query_pieces (urlparse.query res)) = Raise e))).
Proof.
  intros Hres _ r. subst r. rewrite uri_to_options_steps, Hres. py_bind. cbn [fst snd].
  assert (Hrest :
    forall x, (hp ← host_options env st self res;
               pp ← port_options self res;
               segs ← decode_all (path_pieces (urlparse.path res));
               clauses ← decode_all (query_pieces (urlparse.query res));
               Ok (hp ++ pp ++ map UriPath segs ++ map UriQuery clauses)) = Raise x ->
              is_URIError x = false
              /\ (host_options env st self res = Raise x
                  \/ port_options self res = Raise x
                  \/ decode_all (path_pieces (urlparse.path res)) = Raise x
                  \/ decode_all (query_pieces (urlparse.query res)) = Raise x)).
  { intros x. py_bind.
    destruct (host_options env st self res) as [hp|e] eqn:Hhp.
    2:{ intros [= <-]. split; [eapply host_options_not_URIError; eassumption | auto]. }
    destruct (port_options self res) as [pp|e] eqn:Hpp.
    2:{ intros [= <-]. split; [eapply port_options_not_URIError; eassumption | auto]. }
    destruct (decode_all (path_pieces (urlparse.path res))) as [segs|e] eqn:Hs.
    2:{ intros [= <-]. split; [eapply decode_all_not_URIError; eassumption | auto]. }
    destruct (decode_all (query_pieces (urlparse.query res))) as [clauses|e] eqn:Hc.
    2:{ intros [= <-]. split; [eapply decode_all_not_URIError; eassumption | auto]. }
    discriminate. }
  py_bind.
  destruct (not_absolute res); [|destruct (invalid_scheme res)].
  - split; [reflexivity|]. split; [discriminate|]. split; [auto | discriminate].
  - split; [discriminate|]. split; [reflexivity|]. split; [auto | discriminate].
  - split; [discriminate|]. split; [discriminate|]. split.
    + intros e He Hu. destruct (Hrest e He) as [Hn _]. congruence.
    + intros _ _.
      match goal with
      | |- (exists opts, ?c = Ok opts) \/ _ => destruct c as [opts|e] eqn:Hc
      end.
      * left. eauto.
      * right. exists e. destruct (Hrest e eq_refl) as [Hn Hsrc]. auto.
Qed.

(** The relative URI /a resolved against the base URI of "node". *)
Lemma C5_witness :
  resolved sample.node "/a" None =
  Ok ("coap://node/a",
      {| urlparse.scheme := "coap"; urlparse.netloc := "node"; urlparse.path := "/a";
         urlparse.query := ""; urlparse.fragment := "" |})
  /\ (exists opts, uri_to_options sample.env initial_state sample.node "/a" None = Ok opts).
Proof.
  assert (H : resolved sample.node "/a" None =
              Ok ("coap://node/a",
                  {| urlparse.scheme := "coap"; urlparse.netloc := "node";
                     urlparse.path := "/a"; urlparse.query := "";
                     urlparse.fragment := "" |})) by (vm_compute; reflexivity).
  split; [exact H|].
  destruct (proj2 (proj2 (proj2
              (C5_uri_errors sample.env initial_state sample.node "/a" None _ _ H eq_refl)))
              eq_refl eq_refl) as [Hok | (e & He & _)].
  - exact Hok.
  - vm_compute in He. discriminate He.
Defined.

End UriErrorClaims.

(** ** Options to URI *)

Section UriFromOptionsClaims.
Import Endpoint.

Lemma query_elts_values (env : Env) (opts : list CoapOption) :
  query_elts env opts =
  map (fun v => urllib.quote (util.to_net_unicode env v) "?") (UriQuery_values opts).
Proof.
  induction opts as [|o opts IH]; [reflexivity|].
  destruct o; cbn [query_elts UriQuery_values map]; rewrite IH; reflexivity.
Qed.

Lemma path_elts_values (env : Env) (opts : list CoapOption) :
  path_elts env opts =
  map (fun v => urllib.quote (util.to_net_unicode env v) "") (UriPath_values opts).
Proof.
  induction opts as [|o opts IH]; [reflexivity|].
  destruct o; cbn [path_elts UriPath_values map]; rewrite IH; reflexivity.
Qed.

(** The query is appended to the rest of the URI, after a question
    mark, when it is not empty, and left out otherwise. *)
Lemma urlunsplit_query (scheme netloc path query : string) :
  urlparse.urlunsplit scheme netloc path query "" =
  if pystr.nonempty query
  then String.append (urlparse.urlunsplit scheme netloc path "" "") (String "?" query)
  else urlparse.urlunsplit scheme netloc path "" "".
Proof.
  unfold urlparse.urlunsplit. cbn [pystr.nonempty].
  destruct (pystr.nonempty query); reflexivity.
Qed.

(** C9, the claim as stated is refuted: the safe set handed to
    [urllib.quote] for a query value is "?", so a question mark in the
    value is kept as it is.  The option UriQuery("a?b") yields the URI
    coap://node/?a?b; encoding with a safe set without "?" would give
    a%3Fb. *)
Lemma C9_counterexample :
  uri_from_options sample.env sample.node [UriQuery "a?b"] = Ok "coap://node/?a?b"
  /\ urllib.quote "a?b" "" = "a%3Fb"
  /\ ~ (forall (env : Env) (value : string),
          Forall (fun clause => pystr.contains "?" clause = false)
            (query_elts env [UriQuery value])).
Proof.
  split; [vm_compute; reflexivity|]. split; [vm_compute; reflexivity|].
  intros H. specialize (H sample.env "a?b").
  inversion H as [|? ? Hc _]. vm_compute in Hc. discriminate Hc.
Qed.

(** C9 (amended).  When [uri_from_options] succeeds, the query it
    hands to [urlunsplit] is the values of the UriQuery options, in list
    order, each in Net-Unicode form and percent-encoded with the safe
    set "?", joined with "&".  In that encoding a byte is kept when it
    is an ASCII letter, a digit, "_", "." or "-", or the question mark;
    every other byte is escaped.  The URI ends with "?" and the query
    when the query is not empty; with no UriQuery option the query
    component is absent. *)
Theorem C9_query_of_uri_from_options (env : Env) (self : t) (opts : list CoapOption)
    (scheme netloc path query : string) :
  uri_components env self opts = Ok (scheme, netloc, path, query) ->
  let front := urlparse.urlunsplit scheme netloc path "" "" in
  query = pystr.join "&"
            (map (fun v => urllib.quote (util.to_net_unicode env v) "?")
               (UriQuery_values opts))
  /\ (forall c : ascii,
        urllib.quoter "?" c =
        if (N.ltb (pystr.byte c) 128 && pystr.contains c urllib.always_safe)
           || Ascii.eqb c "?"
        then String c EmptyString else urllib.percent_escape c)
  /\ uri_from_options env self opts =
     Ok (if pystr.nonempty query then String.append front (String "?" query) else front)
  /\ (UriQuery_values opts = [] -> uri_from_options env self opts = Ok front).
Proof.
  intros H front. subst front.
  assert (Hq : query = pystr.join "&"
                 (map (fun v => urllib.quote (util.to_net_unicode env v) "?")
                    (UriQuery_values opts))).
  { unfold uri_components in H. py_bind.
    repeat case_match; simplify_eq; rewrite query_elts_values; reflexivity. }
  split; [exact Hq|]. split.
  { intros c. unfold urllib.quoter. cbn [pystr.contains].
    rewrite orb_false_r. reflexivity. }
  assert (Hu : uri_from_options env self opts =
               Ok (urlparse.urlunsplit scheme netloc path query "")).
  { unfold uri_from_options. rewrite H. reflexivity. }
  split.
  - rewrite Hu, urlunsplit_query. reflexivity.
  - intros Hnil. rewrite Hu, urlunsplit_query, Hq, Hnil. reflexivity.
Qed.

(** Two query options on the endpoint "node". *)
Lemma C9_witness :
  uri_components sample.env sample.node [UriQuery "a?b"; UriPath "x"; UriQuery "c&d"] =
  Ok ("coap", "node", "/x", "a?b&c%26d")
  /\ uri_from_options sample.env sample.node [UriQuery "a?b"; UriPath "x"; UriQuery "c&d"] =
     Ok "coap://node/x?a?b&c%26d".
Proof.
  assert (H : uri_components sample.env sample.node
                [UriQuery "a?b"; UriPath "x"; UriQuery "c&d"] =
              Ok ("coap", "node", "/x", "a?b&c%26d")) by (vm_compute; reflexivity).
  split; [exact H|].
  exact (proj1 (proj2 (proj2 (C9_query_of_uri_from_options sample.env sample.node _ _ _ _ _ H)))).
Defined.

End UriFromOptionsClaims.

(** ** Round trip *)

Section RoundTripClaims.
Import Endpoint.

Lemma host_from_options_none (opts : list CoapOption) :
  no_host_port opts = true -> host_from_options opts = Ok None.
Proof.
  unfold no_host_port. induction opts as [|o opts IH]; [reflexivity|].
  cbn [forallb]. intros H. apply andb_true_iff in H. destruct H as [Ho Hr].
  destruct o; cbn [host_from_options]; try (apply IH; exact Hr). discriminate Ho.
Qed.

Lemma port_from_options_none (p : Z) (opts : list CoapOption) :
  no_host_port opts = true -> port_from_options p opts = Ok p.
Proof.
  unfold no_host_port. induction opts as [|o opts IH]; [reflexivity|].
  cbn [forallb]. intros H. apply andb_true_iff in H. destruct H as [Ho Hr].
  destruct o; cbn [port_from_options]; try (apply IH; exact Hr). discriminate Ho.
Qed.

(** Without UriHost and UriPort options the scheme and the authority
    are those of the endpoint's own URI. *)
Lemma uri_components_own_authority (env : Env) (self : t) (opts : list CoapOption)
    (sch nl : string) :
  no_host_port opts = true ->
  uri_components env self [] = Ok (sch, nl, "/", "") ->
  uri_components env self opts =
  Ok (sch, nl,
      (let p := pystr.join "/" (EmptyString :: path_elts env opts) in
       if pystr.nonempty p then p else "/"),
      pystr.join "&" (query_elts env opts)).
Proof.
  intros Hno H. unfold uri_components in *.
  rewrite (host_from_options_none opts Hno), (port_from_options_none _ opts Hno).
  cbn [host_from_options port_from_options] in H. py_bind.
  destruct (attr (uri_host self)) as [h|]; [|discriminate].
  destruct (_port_for_scheme _) as [d|]; [|discriminate].
  injection H as <- <-. reflexivity.
Qed.

Lemma UriPath_values_app (segs clauses : list string) :
  UriPath_values (map UriPath segs ++ map UriQuery clauses) = segs.
Proof.
  induction segs as [|s segs IH]; cbn [map app UriPath_values].
  - induction clauses as [|c clauses IH]; [reflexivity | exact IH].
  - rewrite IH. reflexivity.
Qed.

Lemma UriQuery_values_app (segs clauses : list string) :
  UriQuery_values (map UriPath segs ++ map UriQuery clauses) = clauses.
Proof.
  induction segs as [|s segs IH]; cbn [map app UriQuery_values].
  - induction clauses as [|c clauses IH]; [reflexivity|].
    cbn [map UriQuery_values]. rewrite IH. reflexivity.
  - exact IH.
Qed.

Lemma decode_unreserved (safe piece : string) :
  safe = "" \/ safe = "?" ->
  unreserved safe piece = true -> decode_segment piece = Ok piece.
Proof.
  intros Hsafe H. unfold decode_segment, codecs.bytes, codecs.decode_utf8. py_bind.
  rewrite (unreserved_is_ascii safe piece Hsafe H).
  rewrite (unquote_unreserved safe piece Hsafe H).
  rewrite (utf8_valid_ascii piece (unreserved_is_ascii safe piece Hsafe H)).
  reflexivity.
Qed.

Lemma decoded_unreserved (safe : string) (pieces segs : list string) :
  safe = "" \/ safe = "?" ->
  Forall (fun piece => unreserved safe piece = true) pieces ->
  Forall2 (fun piece seg => decode_segment piece = Ok seg) pieces segs ->
  segs = pieces.
Proof.
  intros Hsafe Hall H. induction H as [|p s ps ss Hp _ IH]; [reflexivity|].
  inversion Hall as [|? ? Hu Hrest]; subst.
  rewrite (decode_unreserved safe p Hsafe Hu) in Hp. injection Hp as <-.
  rewrite (IH Hrest). reflexivity.
Qed.

Lemma requote_unreserved (env : Env) (safe : string) (pieces : list string) :
  safe = "" \/ safe = "?" ->
  Forall (fun piece => unreserved safe piece = true) pieces ->
  map (fun v => urllib.quote (util.to_net_unicode env v) safe) pieces = pieces.
Proof.
  intros Hsafe Hall. induction Hall as [|p ps Hp _ IH]; [reflexivity|].
  cbn [map]. rewrite IH. unfold util.to_net_unicode.
  rewrite (normalize_NFC_ascii env p (unreserved_is_ascii safe p Hsafe Hp)).
  rewrite (quote_unreserved safe p Hsafe Hp). reflexivity.
Qed.

(** A path that starts with a slash is its pieces joined again. *)
Lemma join_path_pieces (path : string) :
  pystr.startswith "/" path = true ->
  (let p := pystr.join "/" (EmptyString :: path_pieces path) in
   if pystr.nonempty p then p else "/") = path.
Proof.
  destruct path as [|c rest]; [discriminate|].
  cbn [pystr.startswith]. intros Hc. apply Ascii.eqb_eq in Hc. subst c.
  unfold path_pieces. cbn [pystr.nonempty pystr.startswith pystr.tail andb].
  rewrite Ascii.eqb_refl.
  destruct rest as [|d rest'].
  - reflexivity.
  - change (String.eqb "/" (String "/" (String d rest'))) with false.
    cbn [negb]. cbv zeta.
    pose proof (join_split "/" (String d rest')) as Hj.
    pose proof (split_not_nil "/" (String d rest')) as Hne.
    unfold pystr.join in *.
    destruct (pystr.split "/" (String d rest')) as [|w ws]; [contradiction|].
    change (String.concat "/" (EmptyString :: w :: ws))
      with (String.append "" (String.append "/" (String.concat "/" (w :: ws)))).
    rewrite Hj. reflexivity.
Qed.

Lemma join_query_pieces (query : string) :
  pystr.join "&" (query_pieces query) = query.
Proof.
  unfold query_pieces. destruct query as [|c rest]; [reflexivity|].
  cbn [pystr.nonempty]. apply join_split.
Qed.

Lemma no_host_port_app (hp pp rest : list CoapOption) :
  (hp = [] \/ exists h, hp = [UriHost (Some h)]) ->
  (pp = [] \/ exists n, pp = [UriPort (Some n)]) ->
  no_host_port (hp ++ pp ++ rest) = true -> hp = [] /\ pp = [].
Proof.
  intros [-> | [h ->]] [-> | [n ->]] H; try discriminate H; auto.
Qed.

(** C3, the claim as stated is refuted: on the endpoint "node" the
    relative URI /a?x=1 resolves to coap://node/a?x=1 and is translated
    into UriPath "a", UriQuery "x=1", with no UriHost or UriPort; the
    URI built back from these options is coap://node/a?x%3D1, whose
    query is not the query of the resolved URI. *)
Lemma C3_counterexample :
  resolved sample.node "/a?x=1" None =
  Ok ("coap://node/a?x=1",
      {| urlparse.scheme := "coap"; urlparse.netloc := "node"; urlparse.path := "/a";
         urlparse.query := "x=1"; urlparse.fragment := "" |})
  /\ uri_to_options sample.env initial_state sample.node "/a?x=1" None =
     Ok [UriPath "a"; UriQuery "x=1"]
  /\ uri_from_options sample.env sample.node [UriPath "a"; UriQuery "x=1"] =
     Ok "coap://node/a?x%3D1"
  /\ urlparse.urlsplit "coap://node/a?x%3D1" =
     Ok {| urlparse.scheme := "coap"; urlparse.netloc := "node"; urlparse.path := "/a";
           urlparse.query := "x%3D1"; urlparse.fragment := "" |}
  /\ "x%3D1" <> "x=1".
Proof.
  split; [vm_compute; reflexivity|]. split; [vm_compute; reflexivity|].
  split; [vm_compute; reflexivity|]. split; [vm_compute; reflexivity|].
  discriminate.
Qed.

(** C3 (amended).  Let [uri] resolve to a URI that splits into [res],
    whose scheme and authority are those of the endpoint's own URI and
    whose path starts with a slash, and let its translation [opts] hold
    no UriHost and no UriPort option.  Then the URI built back from
    [opts] has that scheme and authority; its path and query are the
    segments and clauses of [res], percent-decoded and encoded again
    (first part).  If every path segment consists of ASCII letters,
    digits, "_", "." and "-", and every query clause of these characters
    and "?", the URI built back is exactly the one composed of the
    scheme, authority, path and query of [res] (second part). *)
Theorem C3_round_trip (env : Env) (st : State) (self : t) (uri : string)
    (base_uri : option string) (u : string) (res : urlparse.SplitResult)
    (opts : list CoapOption) :
  resolved self uri base_uri = Ok (u, res) ->
  uri_components env self [] = Ok (urlparse.scheme res, urlparse.netloc res, "/", "") ->
  pystr.startswith "/" (urlparse.path res) = true ->
  uri_to_options env st self uri base_uri = Ok opts ->
  no_host_port opts = true ->
  (exists segs clauses,
      Forall2 (fun piece seg => decode_segment piece = Ok seg)
        (path_pieces (urlparse.path res)) segs
      /\ Forall2 (fun piece clause => decode_segment piece = Ok clause)
           (query_pieces (urlparse.query res)) clauses
      /\ uri_components env self opts =
         Ok (urlparse.scheme res, urlparse.netloc res,
             (let p := pystr.join "/"
                         (EmptyString ::
                          map (fun v => urllib.quote (util.to_net_unicode env v) "") segs) in
              if pystr.nonempty p then p else "/"),
             pystr.join "&"
               (map (fun v => urllib.quote (util.to_net_unicode env v) "?") clauses)))
  /\ (Forall (fun piece => unreserved "" piece = true) (path_pieces (urlparse.path res)) ->
      Forall (fun piece => unreserved "?" piece = true) (query_pieces (urlparse.query res)) ->
      uri_from_options env self opts =
      Ok (urlparse.urlunsplit (urlparse.scheme res) (urlparse.netloc res)
            (urlparse.path res) (urlparse.query res) "")).
Proof.
  intros Hres Hown Hslash Hopts Hno.
  destruct (uri_to_options_order env st self uri base_uri opts Hopts)
    as (u' & res' & hp & pp & segs & clauses & Hres' & -> & Hhp & Hpp & Hsegs & Hclauses).
  rewrite Hres in Hres'. injection Hres' as <- <-.
  destruct (no_host_port_app hp pp _ Hhp Hpp Hno) as [-> ->].
  cbn [app] in *.
  assert (Hcomp := uri_components_own_authority env self
                     (map UriPath segs ++ map UriQuery clauses) _ _ Hno Hown).
  rewrite path_elts_values, query_elts_values in Hcomp.
  rewrite UriPath_values_app, UriQuery_values_app in Hcomp.
  split.
  - exists segs, clauses. split; [exact Hsegs|]. split; [exact Hclauses | exact Hcomp].
  - intros Hp Hq. unfold uri_from_options. rewrite Hcomp. py_bind.
    rewrite (decoded_unreserved "" _ segs (or_introl eq_refl) Hp Hsegs).
    rewrite (decoded_unreserved "?" _ clauses (or_intror eq_refl) Hq Hclauses).
    rewrite (requote_unreserved env "" _ (or_introl eq_refl) Hp).
    rewrite (requote_unreserved env "?" _ (or_intror eq_refl) Hq).
    pose proof (join_path_pieces _ Hslash) as Hjp. cbv zeta in Hjp |- *.
    rewrite Hjp, join_query_pieces. reflexivity.
Qed.

(** The relative URI /a/b?q-1&r on the endpoint "node" comes back as
    coap://node/a/b?q-1&r. *)
Lemma C3_witness :
  uri_to_options sample.env initial_state sample.node "/a/b?q-1&r" None =
  Ok [UriPath "a"; UriPath "b"; UriQuery "q-1"; UriQuery "r"]
  /\ uri_from_options sample.env sample.node
       [UriPath "a"; UriPath "b"; UriQuery "q-1"; UriQuery "r"] =
     Ok (urlparse.urlunsplit "coap" "node" "/a/b" "q-1&r" "").
Proof.
  assert (Hres : resolved sample.node "/a/b?q-1&r" None =
                 Ok ("coap://node/a/b?q-1&r",
                     {| urlparse.scheme := "coap"; urlparse.netloc := "node";
                        urlparse.path := "/a/b"; urlparse.query := "q-1&r";
                        urlparse.fragment := "" |})) by (vm_compute; reflexivity).
  assert (Hopts : uri_to_options sample.env initial_state sample.node "/a/b?q-1&r" None =
                  Ok [UriPath "a"; UriPath "b"; UriQuery "q-1"; UriQuery "r"])
    by (vm_compute; reflexivity).
  split; [exact Hopts|].
  refine (proj2 (C3_round_trip sample.env initial_state sample.node "/a/b?q-1&r" None
                   _ _ _ Hres _ _ Hopts _) _ _).
  - vm_compute. reflexivity.
  - reflexivity.
  - reflexivity.
  - repeat constructor.
  - repeat constructor.
Defined.

End RoundTripClaims.
